(** * trafficbot: the quota scheduler and the task dispatch engine

    A shallow embedding of [src/modules/traffic_scheduler.py] and of the
    dispatch part of [src/modules/traffic_bot.py], with the properties of
    the design document stated and settled against it.

    Conventions of the embedding.
    - Python [int] is [Z].  Python [float] arises only from true division
      [/] and from products and quotients of such values, all of which end
      in [math.ceil]; a float is read as the exact rational ([Q]) and
      [math.ceil] as [Qceiling].  A division whose divisor is zero raises
      [ZeroDivisionError] and is written out as such.
    - A [datetime] is kept as its proleptic Gregorian ordinal (what
      [datetime.toordinal] returns) together with its time of day; year,
      month and day are recovered the way CPython's [datetime] does.
    - The bucket key [day.strftime('%Y-%m-%d') + f'-{hour}'] is injective
      in the pair (calendar date, hour), so the key is that pair, the date
      being given by its ordinal.
    - [datetime.now()] and the draws of [random] are inputs of the
      functions that consult them. *)

From Stdlib Require Import ZArith QArith Qround Lia.
From stdpp Require Import base decidable option list gmap strings fin_maps.

Local Open Scope Z_scope.

(** ** The part of Python's [datetime] the scheduler relies on *)

Module PyDatetime.

Record datetime : Type := mkDatetime {
  dt_ord : Z;          (* toordinal(): 1 is 0001-01-01 *)
  dt_hour : Z;
  dt_minute : Z;
  dt_second : Z;
  dt_microsecond : Z
}.

Definition is_leap (year : Z) : bool :=
  (year mod 4 =? 0) && (negb (year mod 100 =? 0) || (year mod 400 =? 0)).

Definition days_before_year (year : Z) : Z :=
  let y := year - 1 in y * 365 + y / 4 - y / 100 + y / 400.

(* _DAYS_IN_MONTH, 1-based *)
Definition DAYS_IN_MONTH (month : Z) : Z :=
  nth (Z.to_nat month) [-1; 31; 28; 31; 30; 31; 30; 31; 31; 30; 31; 30; 31] 0.

(* _DAYS_BEFORE_MONTH, 1-based *)
Definition DAYS_BEFORE_MONTH (month : Z) : Z :=
  nth (Z.to_nat month) [-1; 0; 31; 59; 90; 120; 151; 181; 212; 243; 273; 304; 334] 0.

Definition days_in_month (year month : Z) : Z :=
  if (month =? 2) && is_leap year then 29 else DAYS_IN_MONTH month.

Definition days_before_month (year month : Z) : Z :=
  DAYS_BEFORE_MONTH month + (if (2 <? month) && is_leap year then 1 else 0).

Definition ymd2ord (year month day : Z) : Z :=
  days_before_year year + days_before_month year month + day.

Definition DI400Y : Z := 146097.
Definition DI100Y : Z := 36524.
Definition DI4Y : Z := 1461.

(* _ord2ymd: ordinal -> (year, month, day) *)
Definition ord2ymd (ordinal : Z) : Z * Z * Z :=
  let n := ordinal - 1 in
  let n400 := n / DI400Y in
  let n := n mod DI400Y in
  let year := n400 * 400 + 1 in
  let n100 := n / DI100Y in
  let n := n mod DI100Y in
  let n4 := n / DI4Y in
  let n := n mod DI4Y in
  let n1 := n / 365 in
  let n := n mod 365 in
  let year := year + n100 * 100 + n4 * 4 + n1 in
  if (n1 =? 4) || (n100 =? 4) then (year - 1, 12, 31)
  else
    let leapyear := (n1 =? 3) && (negb (n4 =? 24) || (n100 =? 3)) in
    let month := Z.shiftr (n + 50) 5 in
    let preceding :=
      DAYS_BEFORE_MONTH month + (if (2 <? month) && leapyear then 1 else 0) in
    if n <? preceding then
      let month := month - 1 in
      let preceding :=
        preceding - (DAYS_IN_MONTH month + (if (month =? 2) && leapyear then 1 else 0)) in
      (year, month, n - preceding + 1)
    else (year, month, n - preceding + 1).

Definition dt_year (d : datetime) : Z := (ord2ymd (dt_ord d)).1.1.
Definition dt_month (d : datetime) : Z := (ord2ymd (dt_ord d)).1.2.
Definition dt_day (d : datetime) : Z := (ord2ymd (dt_ord d)).2.

(* datetime(year, month, day, hour, minute, second) *)
Definition make_datetime (year month day h m s : Z) : datetime :=
  mkDatetime (ymd2ord year month day) h m s 0.

(* date.weekday(): Monday is 0 *)
Definition weekday (d : datetime) : Z := (dt_ord d + 6) mod 7.

(* d + timedelta(days=k) *)
Definition add_days (d : datetime) (k : Z) : datetime :=
  mkDatetime (dt_ord d + k) (dt_hour d) (dt_minute d) (dt_second d) (dt_microsecond d).

Definition us_of_day (d : datetime) : Z :=
  ((dt_hour d * 60 + dt_minute d) * 60 + dt_second d) * 1000000 + dt_microsecond d.

(* (a - b).days: the day component of the normalised timedelta *)
Definition delta_days (a b : datetime) : Z :=
  (dt_ord a - dt_ord b) + (us_of_day a - us_of_day b) / 86400000000.

(* datetime comparison: field by field, most significant first *)
Fixpoint lex_ltb (xs ys : list Z) : bool :=
  match xs, ys with
  | x :: xs', y :: ys' => (x <? y) || ((x =? y) && lex_ltb xs' ys')
  | _, _ => false
  end.

Definition dt_fields (d : datetime) : list Z :=
  [dt_ord d; dt_hour d; dt_minute d; dt_second d; dt_microsecond d].

Definition dt_ltb (a b : datetime) : bool := lex_ltb (dt_fields a) (dt_fields b).

(* calendar.monthrange(year, month)[1] *)
Definition monthrange_ndays (year month : Z) : Z := days_in_month year month.

End PyDatetime.

Import PyDatetime.

(** ** The scheduler: [class TrafficScheduler] *)

Module TrafficScheduler.

(* self.target_visits: a dict with the four fixed keys *)
Record targets : Type := mkTargets {
  hourly : Z;
  daily : Z;
  monthly : Z;
  total : Z
}.

Record sched : Type := mkSched {
  target_visits : targets;
  start_date : option datetime;
  end_date : option datetime;
  active_hours : list Z;
  active_days : list Z;
  schedule_mode : string;
  hourly_visits : Z;
  daily_visits : Z;
  monthly_visits : Z;
  total_visits : Z;
  last_hour : option Z;
  last_day : option Z;
  last_month : option Z;
  hourly_targets : gmap (Z * Z) Z
}.

(* __init__ *)
Definition init : sched :=
  {| target_visits := mkTargets 0 0 0 0;
     start_date := None;
     end_date := None;
     active_hours := seqZ 0 24;
     active_days := seqZ 0 7;
     schedule_mode := "even";
     hourly_visits := 0; daily_visits := 0; monthly_visits := 0; total_visits := 0;
     last_hour := None; last_day := None; last_month := None;
     hourly_targets := ∅ |}.

Definition set_target_visits (tv : targets) (s : sched) : sched :=
  {| target_visits := tv; start_date := start_date s; end_date := end_date s;
     active_hours := active_hours s; active_days := active_days s;
     schedule_mode := schedule_mode s;
     hourly_visits := hourly_visits s; daily_visits := daily_visits s;
     monthly_visits := monthly_visits s; total_visits := total_visits s;
     last_hour := last_hour s; last_day := last_day s; last_month := last_month s;
     hourly_targets := hourly_targets s |}.

Definition set_dates (st en : option datetime) (s : sched) : sched :=
  {| target_visits := target_visits s; start_date := st; end_date := en;
     active_hours := active_hours s; active_days := active_days s;
     schedule_mode := schedule_mode s;
     hourly_visits := hourly_visits s; daily_visits := daily_visits s;
     monthly_visits := monthly_visits s; total_visits := total_visits s;
     last_hour := last_hour s; last_day := last_day s; last_month := last_month s;
     hourly_targets := hourly_targets s |}.

Definition set_hours (hs : list Z) (s : sched) : sched :=
  {| target_visits := target_visits s; start_date := start_date s; end_date := end_date s;
     active_hours := hs; active_days := active_days s;
     schedule_mode := schedule_mode s;
     hourly_visits := hourly_visits s; daily_visits := daily_visits s;
     monthly_visits := monthly_visits s; total_visits := total_visits s;
     last_hour := last_hour s; last_day := last_day s; last_month := last_month s;
     hourly_targets := hourly_targets s |}.

Definition set_days (ds : list Z) (s : sched) : sched :=
  {| target_visits := target_visits s; start_date := start_date s; end_date := end_date s;
     active_hours := active_hours s; active_days := ds;
     schedule_mode := schedule_mode s;
     hourly_visits := hourly_visits s; daily_visits := daily_visits s;
     monthly_visits := monthly_visits s; total_visits := total_visits s;
     last_hour := last_hour s; last_day := last_day s; last_month := last_month s;
     hourly_targets := hourly_targets s |}.

Definition set_mode (m : string) (s : sched) : sched :=
  {| target_visits := target_visits s; start_date := start_date s; end_date := end_date s;
     active_hours := active_hours s; active_days := active_days s;
     schedule_mode := m;
     hourly_visits := hourly_visits s; daily_visits := daily_visits s;
     monthly_visits := monthly_visits s; total_visits := total_visits s;
     last_hour := last_hour s; last_day := last_day s; last_month := last_month s;
     hourly_targets := hourly_targets s |}.

Definition set_table (tbl : gmap (Z * Z) Z) (s : sched) : sched :=
  {| target_visits := target_visits s; start_date := start_date s; end_date := end_date s;
     active_hours := active_hours s; active_days := active_days s;
     schedule_mode := schedule_mode s;
     hourly_visits := hourly_visits s; daily_visits := daily_visits s;
     monthly_visits := monthly_visits s; total_visits := total_visits s;
     last_hour := last_hour s; last_day := last_day s; last_month := last_month s;
     hourly_targets := tbl |}.

Definition set_counters (hv dv mv tv : Z) (lh ld lm : option Z) (s : sched) : sched :=
  {| target_visits := target_visits s; start_date := start_date s; end_date := end_date s;
     active_hours := active_hours s; active_days := active_days s;
     schedule_mode := schedule_mode s;
     hourly_visits := hv; daily_visits := dv; monthly_visits := mv; total_visits := tv;
     last_hour := lh; last_day := ld; last_month := lm;
     hourly_targets := hourly_targets s |}.

(** *** Exceptions and outcomes *)

Inductive exn : Type := ZeroDivisionError | ValueError.

(* A call either returns, or an exception leaves it; either way the object
   is left in some state. *)
Inductive outcome : Type :=
  | Done (s : sched)
  | Raised (e : exn) (s : sched).

Definition state_of (o : outcome) : sched :=
  match o with Done s => s | Raised _ s => s end.

(* [x in xs] on a list of ints *)
Definition mem (x : Z) (xs : list Z) : bool := bool_decide (x ∈ xs).

(* a / b on numbers, as a rational; None is ZeroDivisionError *)
Definition pydiv (a b : Q) : option Q :=
  if Qeq_bool b 0 then None else Some (a / b)%Q.

Definition ceil (q : Q) : Z := Qceiling q.

(** *** calculate_schedule, lines 103-147: the derivation of the targets *)

(* the day offsets [d] of the campaign whose weekday is active *)
Definition active_offsets (start : datetime) (adays : list Z) (total_days : Z) : list Z :=
  filter (λ d, mem (weekday (add_days start d)) adays = true) (seqZ 0 total_days).

Definition active_days_count (start : datetime) (adays : list Z) (total_days : Z) : Z :=
  Z.of_nat (length (active_offsets start adays total_days)).

Definition derive_targets (total_days adc ahc : Z) (tv : targets) : exn + targets :=
  if 0 <? monthly tv then
    match pydiv (inject_Z (monthly tv)) (inject_Z adc) with
    | None => inl ZeroDivisionError
    | Some target_per_day =>
      match pydiv target_per_day (inject_Z ahc) with
      | None => inl ZeroDivisionError
      | Some target_per_hour =>
        inr {| daily := ceil target_per_day;
               hourly := ceil target_per_hour;
               total := monthly tv;
               monthly := monthly tv |}
      end
    end
  else if 0 <? total tv then
    (* (total_days / 30) or 1 *)
    let months := if total_days =? 0 then 1%Q else (inject_Z total_days / 30)%Q in
    match pydiv (inject_Z (total tv)) months with
    | None => inl ZeroDivisionError
    | Some target_per_month =>
      match pydiv (inject_Z (total tv)) (inject_Z adc) with
      | None => inl ZeroDivisionError
      | Some target_per_day =>
        match pydiv target_per_day (inject_Z ahc) with
        | None => inl ZeroDivisionError
        | Some target_per_hour =>
          inr {| monthly := ceil target_per_month;
                 daily := ceil target_per_day;
                 hourly := ceil target_per_hour;
                 total := total tv |}
        end
      end
    end
  else if 0 <? daily tv then
    match pydiv (inject_Z (daily tv)) (inject_Z ahc) with
    | None => inl ZeroDivisionError
    | Some target_per_hour =>
      match pydiv (inject_Z adc) (inject_Z total_days) with
      | None => inl ZeroDivisionError
      | Some frac =>
        let target_per_month := (inject_Z (daily tv) * frac * 30)%Q in
        let target_total := daily tv * adc in
        inr {| hourly := ceil target_per_hour;
               monthly := ceil target_per_month;
               total := target_total;
               daily := daily tv |}
      end
    end
  else if 0 <? hourly tv then
    let target_per_day := hourly tv * ahc in
    match pydiv (inject_Z adc) (inject_Z total_days) with
    | None => inl ZeroDivisionError
    | Some frac =>
      let target_per_month := (inject_Z target_per_day * frac * 30)%Q in
      let target_total := hourly tv * (adc * ahc) in
      inr {| daily := target_per_day;
             monthly := ceil target_per_month;
             total := target_total;
             hourly := hourly tv |}
    end
  else inr tv.


(** *** calculate_schedule, lines 149-221: the hourly target table *)

(* the key of the bucket [hour] of the day [start + timedelta(days=d)] *)
Definition key_of (start : datetime) (d h : Z) : Z * Z :=
  (dt_ord (add_days start d), h).

Definition put (tbl : gmap (Z * Z) Z) (kv : (Z * Z) * Z) : gmap (Z * Z) Z :=
  <[kv.1 := kv.2]> tbl.

(* 'even': every bucket of every active day gets the hourly target *)
Definition even_table (start : datetime) (ahours offs : list Z) (hourly_target : Z)
  : gmap (Z * Z) Z :=
  foldl (λ tbl d,
           foldl (λ tbl h, put tbl (key_of start d h, hourly_target)) tbl ahours)
        ∅ offs.

(* 'random': the while loop that hands out one unit per draw;
   [rnd k] is the k-th number the generator yields, [random.randint(0, n - 1)]
   is its residue modulo [n] and raises ValueError when the range is empty *)
Fixpoint scatter (remaining : nat) (rnd : nat → Z) (k : nat) (n : Z) (vals : list Z)
  : exn + (list Z * nat) :=
  match remaining with
  | O => inr (vals, k)
  | S r =>
    if n <=? 0 then inl ValueError
    else
      let idx := rnd k mod n in
      scatter r rnd (S k) n (alter (λ v, v + 1) (Z.to_nat idx) vals)
  end.

Fixpoint random_table (start : datetime) (ahours offs : list Z) (daily_target : Z)
    (rnd : nat → Z) (k : nat) (tbl : gmap (Z * Z) Z)
  : (exn * gmap (Z * Z) Z) + gmap (Z * Z) Z :=
  match offs with
  | [] => inr tbl
  | d :: offs' =>
    let hours_for_day := map (key_of start d) ahours in
    let hourly_values := replicate (length hours_for_day) 0 in
    match scatter (Z.to_nat daily_target) rnd k (Z.of_nat (length hours_for_day))
                  hourly_values with
    | inl e => inl (e, tbl)
    | inr (vals, k') =>
      random_table start ahours offs' daily_target rnd k'
                   (foldl put tbl (zip hours_for_day vals))
    end
  end.

(* hour_idx = day_offset * 24 + hour *)
Definition hour_idx (d h : Z) : Z := d * 24 + h.

Definition front_weight (total_active_hours d h : Z) : Z :=
  Z.max 1 (total_active_hours - hour_idx d h).

Definition back_weight (d h : Z) : Z := hour_idx d h + 1.

(* the list [weights] of pairs (key, weight), in the order of the two loops *)
Definition weights_of (wf : Z → Z → Z) (start : datetime) (ahours offs : list Z)
  : list ((Z * Z) * Z) :=
  flat_map (λ d, map (λ h, (key_of start d h, wf d h)) ahours) offs.

Definition sumZ (xs : list Z) : Z := foldr Z.add 0 xs.

(* for hour_key, weight in weights:
     hourly_targets[hour_key] = ceil((weight / total_weight) * total_target) *)
Fixpoint weighted_fill (ws : list ((Z * Z) * Z)) (total_weight total_target : Z)
    (tbl : gmap (Z * Z) Z) : (exn * gmap (Z * Z) Z) + gmap (Z * Z) Z :=
  match ws with
  | [] => inr tbl
  | (key, weight) :: ws' =>
    match pydiv (inject_Z weight) (inject_Z total_weight) with
    | None => inl (ZeroDivisionError, tbl)
    | Some share =>
      weighted_fill ws' total_weight total_target
        (<[key := ceil (share * inject_Z total_target)]> tbl)
    end
  end.

Definition weighted_table (wf : Z → Z → Z) (start : datetime) (ahours offs : list Z)
    (total_target : Z) : (exn * gmap (Z * Z) Z) + gmap (Z * Z) Z :=
  let weights := weights_of wf start ahours offs in
  let total_weight := sumZ (map snd weights) in
  weighted_fill weights total_weight total_target ∅.

Definition distribute (mode : string) (start : datetime) (ahours offs : list Z)
    (tv : targets) (rnd : nat → Z) : (exn * gmap (Z * Z) Z) + gmap (Z * Z) Z :=
  if String.eqb mode "even" then inr (even_table start ahours offs (hourly tv))
  else if String.eqb mode "random" then
    random_table start ahours offs (daily tv) rnd 0 ∅
  else if String.eqb mode "frontloaded" then
    let total_active_hours := Z.of_nat (length offs) * Z.of_nat (length ahours) in
    weighted_table (front_weight total_active_hours) start ahours offs (total tv)
  else if String.eqb mode "backloaded" then
    weighted_table back_weight start ahours offs (total tv)
  else inr ∅.

(* the last instant of the month of [now] *)
Definition month_end (now : datetime) : datetime :=
  let year := dt_year now in
  let month := dt_month now in
  make_datetime year month (monthrange_ndays year month) 23 59 59.

(** *** calculate_schedule *)

(* lines 92-107: the window after defaulting, and what is counted on it *)
Definition campaign_end (now : datetime) (s : sched) : datetime :=
  match end_date s with Some e => e | None => month_end now end.

Definition campaign_start (now : datetime) (s : sched) : datetime :=
  match start_date s with Some d => d | None => now end.

Definition campaign_days (now : datetime) (s : sched) : Z :=
  delta_days (campaign_end now s) (campaign_start now s) + 1.

Definition campaign_offsets (now : datetime) (s : sched) : list Z :=
  active_offsets (campaign_start now s) (active_days s) (campaign_days now s).

Definition calculate_schedule (now : datetime) (rnd : nat → Z) (s : sched) : outcome :=
  let en := campaign_end now s in
  let st := campaign_start now s in
  let s1 := set_dates (Some st) (Some en) s in
  let total_days := campaign_days now s in
  let offs := campaign_offsets now s in
  let adc := Z.of_nat (length offs) in
  let ahc := Z.of_nat (length (active_hours s1)) in
  match derive_targets total_days adc ahc (target_visits s1) with
  | inl e => Raised e s1
  | inr tv =>
    let s2 := set_target_visits tv s1 in
    match distribute (schedule_mode s2) st (active_hours s2) offs tv rnd with
    | inl (e, tbl) => Raised e (set_table tbl s2)
    | inr tbl => Done (set_table tbl s2)
    end
  end.

(** *** The setters *)

Definition set_period (period : string) (value : Z) (tv : targets) : option targets :=
  if String.eqb period "hourly" then
    Some {| hourly := value; daily := daily tv; monthly := monthly tv; total := total tv |}
  else if String.eqb period "daily" then
    Some {| hourly := hourly tv; daily := value; monthly := monthly tv; total := total tv |}
  else if String.eqb period "monthly" then
    Some {| hourly := hourly tv; daily := daily tv; monthly := value; total := total tv |}
  else if String.eqb period "total" then
    Some {| hourly := hourly tv; daily := daily tv; monthly := monthly tv; total := value |}
  else None.

Definition set_target (now : datetime) (rnd : nat → Z) (period : string) (value : Z)
    (s : sched) : outcome :=
  match set_period period value (target_visits s) with
  | Some tv => calculate_schedule now rnd (set_target_visits tv s)
  | None => Done s
  end.

Definition set_time_range (now : datetime) (rnd : nat → Z)
    (start_date end_date : option datetime) (s : sched) : outcome :=
  calculate_schedule now rnd (set_dates start_date end_date s).

Definition set_active_hours (now : datetime) (rnd : nat → Z) (hours : list Z)
    (s : sched) : outcome :=
  calculate_schedule now rnd (set_hours hours s).

Definition set_active_days (now : datetime) (rnd : nat → Z) (days : list Z)
    (s : sched) : outcome :=
  calculate_schedule now rnd (set_days days s).

Definition valid_modes : list string := ["even"; "random"; "frontloaded"; "backloaded"].

(* the else branch only writes to the error log *)
Definition set_schedule_mode (now : datetime) (rnd : nat → Z) (mode : string)
    (s : sched) : outcome :=
  if bool_decide (mode ∈ valid_modes) then calculate_schedule now rnd (set_mode mode s)
  else Done s.

(** *** The gate and the live counters *)

Definition hour_key (now : datetime) : Z * Z := (dt_ord now, dt_hour now).

Definition before_start (now : datetime) (s : sched) : bool :=
  match start_date s with Some sd => dt_ltb now sd | None => false end.

Definition after_end (now : datetime) (s : sched) : bool :=
  match end_date s with Some ed => dt_ltb ed now | None => false end.

Definition inactive (now : datetime) (s : sched) : bool :=
  negb (mem (dt_hour now) (active_hours s)) || negb (mem (weekday now) (active_days s)).

Definition quota_reached (now : datetime) (s : sched) : bool :=
  match hourly_targets s !! hour_key now with
  | Some t => t <=? hourly_visits s
  | None => false
  end.

(* lines 247-258: reset counters if the hour/day/month has changed *)
Definition rollover (now : datetime) (s : sched) : sched :=
  let '(hv, lh) :=
    if bool_decide (last_hour s ≠ Some (dt_hour now))
    then (0, Some (dt_hour now)) else (hourly_visits s, last_hour s) in
  let '(dv, ld) :=
    if bool_decide (last_day s ≠ Some (dt_day now))
    then (0, Some (dt_day now)) else (daily_visits s, last_day s) in
  let '(mv, lm) :=
    if bool_decide (last_month s ≠ Some (dt_month now))
    then (0, Some (dt_month now)) else (monthly_visits s, last_month s) in
  set_counters hv dv mv (total_visits s) lh ld lm s.

Definition should_generate_traffic (now : datetime) (s : sched) : sched * bool :=
  if before_start now s then (s, false)
  else if after_end now s then (s, false)
  else if inactive now s then (s, false)
  else if quota_reached now s then (s, false)
  else (rollover now s, true).

Definition record_visit (s : sched) : sched :=
  set_counters (hourly_visits s + 1) (daily_visits s + 1) (monthly_visits s + 1)
               (total_visits s + 1) (last_hour s) (last_day s) (last_month s) s.


(** *** Sequences of calls on one scheduler *)

(* what the orchestrator does with the scheduler: ask the gate, or record *)
Inductive call : Type :=
  | Check (now : datetime)
  | Record.

(* run the calls in order, collecting the answers of the gate *)
Fixpoint run (cs : list call) (s : sched) : sched * list bool :=
  match cs with
  | [] => (s, [])
  | Check now :: cs' =>
    let '(s1, b) := should_generate_traffic now s in
    let '(s2, bs) := run cs' s1 in
    (s2, b :: bs)
  | Record :: cs' => run cs' (record_visit s)
  end.

(* the calls that fall into bucket [k]: every check is made at a time of
   that (date, hour) *)
Definition in_bucket (k : Z * Z) (c : call) : Prop :=
  match c with Check now => hour_key now = k | Record => True end.

(* the answer of steps 1 and 2 of the gate alone: window and calendar *)
Definition window_permits (now : datetime) (s : sched) : bool :=
  negb (before_start now s) && negb (after_end now s) && negb (inactive now s).

(** *** Notions in which the properties are stated *)

Inductive period : Type := Monthly | Total | Daily | Hourly.

(* the target taken as given: the first positive one in the order
   monthly, total, daily, hourly *)
Definition authoritative (tv : targets) : option (period * Z) :=
  if 0 <? monthly tv then Some (Monthly, monthly tv)
  else if 0 <? total tv then Some (Total, total tv)
  else if 0 <? daily tv then Some (Daily, daily tv)
  else if 0 <? hourly tv then Some (Hourly, hourly tv)
  else None.

Definition target_of (p : period) (tv : targets) : Z :=
  match p with
  | Monthly => monthly tv | Total => total tv
  | Daily => daily tv | Hourly => hourly tv
  end.

Definition period_name (p : period) : string :=
  match p with
  | Monthly => "monthly" | Total => "total"
  | Daily => "daily" | Hourly => "hourly"
  end.

(* the targets with the one of period [p] replaced by [v] *)
Definition store (p : period) (v : Z) (tv : targets) : targets :=
  match p with
  | Monthly => {| hourly := hourly tv; daily := daily tv; monthly := v; total := total tv |}
  | Total => {| hourly := hourly tv; daily := daily tv; monthly := monthly tv; total := v |}
  | Daily => {| hourly := hourly tv; daily := v; monthly := monthly tv; total := total tv |}
  | Hourly => {| hourly := v; daily := daily tv; monthly := monthly tv; total := total tv |}
  end.

Definition nonneg_targets (tv : targets) : Prop :=
  0 ≤ hourly tv ∧ 0 ≤ daily tv ∧ 0 ≤ monthly tv ∧ 0 ≤ total tv.


(* the sum of the targets of all buckets of a table *)
Definition table_sum (tbl : gmap (Z * Z) Z) : Z :=
  map_fold (λ _ v acc, v + acc) 0 tbl.

(* bucket [k1] is not later than bucket [k2]: by date, then by hour *)
Definition key_le (k1 k2 : Z * Z) : Prop :=
  k1.1 < k2.1 ∨ (k1.1 = k2.1 ∧ k1.2 ≤ k2.2).

Definition valid_hours (hs : list Z) : Prop := Forall (λ h, 0 ≤ h < 24) hs.

(* what line 202 (resp. 221) assigns for one pair of [weights] *)
Definition share_of (total_weight total_target : Z) (kw : (Z * Z) * Z) : (Z * Z) * Z :=
  (kw.1, ceil (inject_Z kw.2 / inject_Z total_weight * inject_Z total_target)).

(** *** get_stats *)





(** *** Further notions *)

(* what a task does with the scheduler when it goes through: it asks the
   gate and, if let in, records its visit at the end *)
Definition attempt (now : datetime) (s : sched) : sched * bool :=
  let '(s1, ok) := should_generate_traffic now s in
  (if ok then record_visit s1 else s1, ok).

Fixpoint attempts (ts : list datetime) (s : sched) : sched * list bool :=
  match ts with
  | [] => (s, [])
  | now :: ts' =>
    let '(s1, b) := attempt now s in
    let '(s2, bs) := attempts ts' s1 in
    (s2, b :: bs)
  end.

(* how many of the answers are True *)
Definition admitted (bs : list bool) : Z := Z.of_nat (length (filter (λ b, b = true) bs)).

(* the date of the bucket is one of the days the loops of calculate_schedule
   run through, and its hour is an active one *)
Definition campaign_bucket (now : datetime) (s : sched) (k : Z * Z) : Prop :=
  dt_ord (campaign_start now s) ≤ k.1 < dt_ord (campaign_start now s) + campaign_days now s ∧
  (k.1 + 6) mod 7 ∈ active_days s ∧
  k.2 ∈ active_hours s.

(* the targets of the buckets of the day at offset [d], hour by hour *)
Definition day_targets (tbl : gmap (Z * Z) Z) (start : datetime) (ahours : list Z) (d : Z)
  : list Z :=
  map (λ h, default 0 (tbl !! key_of start d h)) ahours.

End TrafficScheduler.

(** ** The orchestrator: [class TrafficBot] *)

Module TrafficBot.

Import TrafficScheduler.

(* the dicts {"type": "search", "keyword": k} and {"type": "visit", "url": u} *)
Inductive task : Type :=
  | Search (keyword : string)
  | Visit (url : string).

(* [stats] is the dict of counters; its two time stamps are kept apart as
   [start_time] and [last_visit].  A worker thread is recorded by whether its
   [worker] function is still running. *)
Record bot : Type := mkBot {
  scheduler : sched;
  keywords : list string;
  urls : list string;
  running : bool;
  paused : bool;
  worker_threads : list bool;
  task_queue : list task;
  custom_tracking_urls : gmap string string;
  stats : gmap string Z;
  start_time : option datetime;
  last_visit : option datetime
}.

Definition counters : list string :=
  ["visits"; "successful_visits"; "failed_visits"; "captchas_solved";
   "vpn_switches"; "proxy_switches"; "adsense_impressions"; "social_traffic";
   "search_traffic"; "direct_traffic"; "referral_traffic"; "mobile_visits";
   "desktop_visits"; "tablet_visits"].

(* __init__ *)
Definition init (scheduler : sched) : bot :=
  {| scheduler := scheduler;
     keywords := []; urls := [];
     running := false; paused := false;
     worker_threads := [];
     task_queue := [];
     custom_tracking_urls := ∅;
     stats := list_to_map (map (λ k, (k, 0)) counters);
     start_time := None; last_visit := None |}.

Definition set_scheduler (x : sched) (b : bot) : bot :=
  {| scheduler := x; keywords := keywords b; urls := urls b;
     running := running b; paused := paused b; worker_threads := worker_threads b;
     task_queue := task_queue b; custom_tracking_urls := custom_tracking_urls b;
     stats := stats b; start_time := start_time b; last_visit := last_visit b |}.

Definition set_lists (ks us : list string) (b : bot) : bot :=
  {| scheduler := scheduler b; keywords := ks; urls := us;
     running := running b; paused := paused b; worker_threads := worker_threads b;
     task_queue := task_queue b; custom_tracking_urls := custom_tracking_urls b;
     stats := stats b; start_time := start_time b; last_visit := last_visit b |}.

Definition set_flags (r p : bool) (b : bot) : bot :=
  {| scheduler := scheduler b; keywords := keywords b; urls := urls b;
     running := r; paused := p; worker_threads := worker_threads b;
     task_queue := task_queue b; custom_tracking_urls := custom_tracking_urls b;
     stats := stats b; start_time := start_time b; last_visit := last_visit b |}.

Definition set_threads (ts : list bool) (b : bot) : bot :=
  {| scheduler := scheduler b; keywords := keywords b; urls := urls b;
     running := running b; paused := paused b; worker_threads := ts;
     task_queue := task_queue b; custom_tracking_urls := custom_tracking_urls b;
     stats := stats b; start_time := start_time b; last_visit := last_visit b |}.

Definition set_queue (q : list task) (b : bot) : bot :=
  {| scheduler := scheduler b; keywords := keywords b; urls := urls b;
     running := running b; paused := paused b; worker_threads := worker_threads b;
     task_queue := q; custom_tracking_urls := custom_tracking_urls b;
     stats := stats b; start_time := start_time b; last_visit := last_visit b |}.

Definition set_stats (st : gmap string Z) (b : bot) : bot :=
  {| scheduler := scheduler b; keywords := keywords b; urls := urls b;
     running := running b; paused := paused b; worker_threads := worker_threads b;
     task_queue := task_queue b; custom_tracking_urls := custom_tracking_urls b;
     stats := st; start_time := start_time b; last_visit := last_visit b |}.

Definition set_stamps (st lv : option datetime) (b : bot) : bot :=
  {| scheduler := scheduler b; keywords := keywords b; urls := urls b;
     running := running b; paused := paused b; worker_threads := worker_threads b;
     task_queue := task_queue b; custom_tracking_urls := custom_tracking_urls b;
     stats := stats b; start_time := st; last_visit := lv |}.

(* self.stats[key] *)
Definition stat (key : string) (b : bot) : Z := default 0 (stats b !! key).

(* self.stats[key] += 1 *)
Definition incr (key : string) (b : bot) : bot :=
  set_stats (<[key := stat key b + 1]> (stats b)) b.

(** *** The collaborators *)

(* what a call into a collaborator does: it returns, or an exception
   comes out of it *)
Inductive ext (A : Type) : Type :=
  | Returns (a : A)
  | Raises.
Arguments Returns {A} a.
Arguments Raises {A}.

(* _interact_with_page: _avoid_adsense_clicks may count an impression,
   then the interactions run to the end or raise *)
Record interaction : Type := {
  ads_found : bool;
  completes : bool
}.

(* one turn of the subpage loop *)
Inductive subpage : Type :=
  | NoLinks                       (* no internal link left: break *)
  | ClickFails                    (* get_attribute or click raises: continue *)
  | Opened (i : interaction).     (* the subpage is interacted with *)

(* what the outside world answers during one call of visit_url *)
Record visit_env : Type := {
  v_now : datetime;               (* datetime.now() read by the gate *)
  v_stamp : datetime;             (* datetime.now() of line 211 *)
  v_vpn_providers : bool;         (* use_vpn_providers is not empty *)
  v_coin : bool;                  (* random.random() > 0.5 *)
  v_vpn_chosen : bool;            (* get_random_vpn(): provider and region *)
  v_proxies : bool;               (* vpn_manager.proxies and vpn_manager.use_proxies *)
  v_device : string;              (* get_random_device() *)
  v_driver : ext bool;            (* get_driver(...): a driver, or None *)
  v_referrer : string;            (* get_random_referrer() *)
  v_get : ext unit;               (* driver.get(url) *)
  v_title : ext string;           (* driver.title *)
  v_captcha_page : ext bool;      (* the test on driver.page_source, line 277 *)
  v_solved : ext bool;            (* detect_and_solve_captcha(driver) *)
  v_bounce : bool;                (* should_bounce() *)
  v_bounce_scroll : ext unit;     (* driver.execute_script of line 299 *)
  v_subpage_count : nat;          (* get_subpage_count() *)
  v_main_page : interaction;      (* _interact_with_page on the main page *)
  v_subpages : list subpage
}.

(* what the outside world answers during one call of search_google *)
Record search_env : Type := {
  s_now : datetime;
  s_vpn_providers : bool;
  s_coin : bool;
  s_vpn_chosen : bool;
  s_proxies : bool;
  s_driver : ext bool;
  s_get : ext unit;
  s_captcha_page : ext bool;
  s_solved : ext bool;
  s_links : list (ext (option string))   (* get_attribute("href") of each link found *)
}.

Record world : Type := {
  w_search : search_env;
  w_visit : visit_env
}.

(** Modelled from the spec: [BrowserManager.close_driver], whose body lies
    beyond the part of browser_manager.py at hand.  The design document lists
    [Close(session)] among the capabilities of the browser session without a
    failure result, and the code calls it from its own exception handlers: it
    releases the driver, returns, and leaves the bot as it is. *)
Definition close_driver (b : bot) : bot := b.

(** *** Blocks that an exception may leave *)

Inductive result (A : Type) : Type :=
  | Ok (a : A)
  | Exc.
Arguments Ok {A} a.
Arguments Exc {A}.

Definition M (A : Type) : Type := bot → bot * result A.

Definition ret {A} (a : A) : M A := λ b, (b, Ok a).

Definition bind {A B} (c : M A) (k : A → M B) : M B :=
  λ b, match c b with
       | (b', Ok a) => k a b'
       | (b', Exc) => (b', Exc)
       end.

Definition call {A} (o : ext A) : M A :=
  λ b, (b, match o with Returns a => Ok a | Raises => Exc end).

Definition modify (f : bot → bot) : M unit := λ b, (f b, Ok tt).

Notation "'let*' x := c 'in' k" := (bind c (λ x, k))
  (at level 10, x name, c at level 100, k at level 200).
Notation "c ;; k" := (bind c (λ _, k))
  (at level 100, k at level 200, right associativity).

(** *** check_schedule and the bookkeeping shared by the two task kinds *)

Definition check_schedule (now : datetime) (b : bot) : bot * bool :=
  let '(s, ok) := should_generate_traffic now (scheduler b) in
  (set_scheduler s b, ok).

Definition record (b : bot) : bot := set_scheduler (record_visit (scheduler b)) b.

(* the choice between VPN and proxy: the flags (use_vpn, use_proxy) *)
Definition choose_identity (vpn_providers coin vpn_chosen proxies : bool) (b : bot)
  : bot * (bool * bool) :=
  let '(b, use_vpn) :=
    if vpn_providers && coin then
      if vpn_chosen then (incr "vpn_switches" b, true) else (b, false)
    else (b, false) in
  let '(b, use_proxy) :=
    if negb use_vpn && proxies then (incr "proxy_switches" b, true) else (b, false) in
  (b, (use_vpn, use_proxy)).

Definition solve_captcha (page : ext bool) (solved : ext bool) : M unit :=
  let* captcha := call page in
  if captcha : bool then
    let* ok := call solved in
    if ok : bool then modify (incr "captchas_solved") else ret tt
  else ret tt.

(** *** search_google *)

(* "google.com" in href *)
Definition contains (sub s : string) : bool :=
  match String.index 0 sub s with Some _ => true | None => false end.

Definition keep_href (link : ext (option string)) : option string :=
  match link with
  | Returns (Some href) =>
    if negb (String.eqb href "") && negb (contains "google.com" href)
    then Some href else None
  | _ => None
  end.

(* lines 131-176, the body of the try once the identity is chosen *)
Definition search_body (e : search_env) : M (list string) :=
  let* driver := call (s_driver e) in
  if negb driver then ret []
  else
    call (s_get e) ;;
    solve_captcha (s_captcha_page e) (s_solved e) ;;
    let results := omap keep_href (s_links e) in
    modify close_driver ;;
    modify record ;;
    ret results.

(* every call that can raise comes before the first result is appended, so
   the handler of line 178 always returns the empty list *)
Definition search_google (e : search_env) (keyword : string) (b : bot)
  : bot * list string :=
  let '(b, permitted) := check_schedule (s_now e) b in
  if negb permitted then (b, [])
  else
    let '(b, _) :=
      choose_identity (s_vpn_providers e) (s_coin e) (s_vpn_chosen e) (s_proxies e) b in
    match search_body e b with
    | (b, Ok results) => (b, results)
    | (b, Exc) => (close_driver b, [])
    end.

(** *** visit_url *)

Definition get_tracking_url (url : string) (b : bot) : string :=
  default url (custom_tracking_urls b !! url).

Definition count_device (device_type : string) (b : bot) : bot :=
  if String.eqb device_type "desktop" then incr "desktop_visits" b
  else if String.eqb device_type "mobile" then incr "mobile_visits" b
  else if String.eqb device_type "tablet" then incr "tablet_visits" b
  else b.

Definition count_referrer (referrer_type : string) (b : bot) : bot :=
  if String.prefix "search_" referrer_type then incr "search_traffic" b
  else if String.prefix "social_" referrer_type then incr "social_traffic" b
  else if String.eqb referrer_type "direct" then incr "direct_traffic" b
  else if String.eqb referrer_type "referral" then incr "referral_traffic" b
  else b.

Definition interact (i : interaction) : M unit :=
  modify (λ b, if ads_found i then incr "adsense_impressions" b else b) ;;
  call (if completes i then Returns tt else Raises).

(* lines 330-358: at most [count] turns; what a turn raises is caught *)
Fixpoint subpages (count : nat) (pages : list subpage) (b : bot) : bot :=
  match count, pages with
  | S n, Opened i :: rest =>
    subpages n rest (if ads_found i then incr "adsense_impressions" b else b)
  | S n, ClickFails :: rest => subpages n rest b
  | _, _ => b
  end.

(* lines 237-368, the body of the try once the identity is chosen *)
Definition visit_body (e : visit_env) : M bool :=
  modify (count_device (v_device e)) ;;
  let* driver := call (v_driver e) in
  if negb driver then
    modify (incr "failed_visits") ;; ret false
  else
    modify (count_referrer (v_referrer e)) ;;
    call (v_get e) ;;
    let* title := call (v_title e) in
    if String.eqb title "" then
      modify close_driver ;; modify (incr "failed_visits") ;; ret false
    else
      solve_captcha (v_captcha_page e) (v_solved e) ;;
      if v_bounce e then
        call (v_bounce_scroll e) ;;
        modify close_driver ;;
        modify (incr "successful_visits") ;;
        modify record ;;
        ret true
      else
        interact (v_main_page e) ;;
        modify (subpages (v_subpage_count e) (v_subpages e)) ;;
        modify close_driver ;;
        modify (incr "successful_visits") ;;
        modify record ;;
        ret true.

Definition visit_url (e : visit_env) (url : string) (b : bot) : bot * bool :=
  let '(b, permitted) := check_schedule (v_now e) b in
  if negb permitted then (b, false)
  else
    let url := get_tracking_url url b in
    let b := incr "visits" b in
    let b := set_stamps (start_time b) (Some (v_stamp e)) b in
    let '(b, _) :=
      choose_identity (v_vpn_providers e) (v_coin e) (v_vpn_chosen e) (v_proxies e) b in
    match visit_body e b with
    | (b, Ok r) => (b, r)
    | (b, Exc) => (incr "failed_visits" (close_driver b), false)
    end.

(** *** The worker and the pool *)

(* one turn of the while loop of [worker]; the flag tells whether the
   thread is still in the loop afterwards *)
Definition worker_iteration (w : world) (b : bot) : bot * bool :=
  if running b && negb (paused b) then
    match task_queue b with
    | [] => (b, true)
    | task :: rest =>
      let b := set_queue rest b in
      match task with
      | Search keyword =>
        let '(b, results) := search_google (w_search w) keyword b in
        (set_queue (task_queue b ++ map Visit (take 3 results)) b, true)
      | Visit url =>
        let '(b, _) := visit_url (w_visit w) url b in
        (b, true)
      end
    end
  else (b, false).

(* thread [i] is given the processor for one turn of its loop; a thread
   whose [worker] has returned does nothing any more *)
Definition thread_step (i : nat) (w : world) (b : bot) : bot :=
  match worker_threads b !! i with
  | Some true =>
    let '(b', alive) := worker_iteration w b in
    set_threads (<[i := alive]> (worker_threads b')) b'
  | _ => b
  end.

Definition queue_tasks (b : bot) : bot :=
  set_queue (task_queue b ++ map Visit (urls b) ++ map Search (keywords b)) b.

Definition start (now : datetime) (num_workers : nat) (b : bot) : bot :=
  if running b then b
  else
    let b := set_flags true false b in
    let b := set_stamps (Some now) (last_visit b) b in
    let b := set_threads (worker_threads b ++ replicate num_workers true) b in
    queue_tasks b.

Definition pause (b : bot) : bot :=
  if negb (running b) || paused b then b else set_flags (running b) true b.

Definition resume (b : bot) : bot :=
  if negb (running b) || negb (paused b) then b else set_flags (running b) false b.

Definition stop (b : bot) : bot :=
  if negb (running b) then b else set_threads [] (set_flags false false b).

(** *** Notions in which the properties are stated *)

(* what the control plane and the scheduler of threads may do to a pool
   that is not stopped *)
Inductive event : Type :=
  | Start (now : datetime) (num_workers : nat)
  | Pause
  | Resume
  | Step (i : nat) (w : world).

Definition apply_event (ev : event) (b : bot) : bot :=
  match ev with
  | Start now n => start now n b
  | Pause => pause b
  | Resume => resume b
  | Step i w => thread_step i w b
  end.

Definition run_events (evs : list event) (b : bot) : bot :=
  foldl (λ b ev, apply_event ev b) b evs.

(* the search ran to the end of its try block *)
Definition search_succeeds (e : search_env) (b : bot) : bool :=
  (should_generate_traffic (s_now e) (scheduler b)).2 &&
  match s_driver e, s_get e, s_captcha_page e with
  | Returns true, Returns _, Returns captcha =>
    if captcha then match s_solved e with Returns _ => true | Raises => false end
    else true
  | _, _, _ => false
  end.

(* no call into a collaborator raises during the visit *)
Definition visit_unexceptional (e : visit_env) : bool :=
  match v_driver e with
  | Raises => false
  | Returns false => true
  | Returns true =>
    match v_get e, v_title e with
    | Returns _, Returns title =>
      if String.eqb title "" then true
      else
        match v_captcha_page e with
        | Raises => false
        | Returns captcha =>
          (if captcha then match v_solved e with Returns _ => true | Raises => false end
           else true) &&
          (if v_bounce e
           then match v_bounce_scroll e with Returns _ => true | Raises => false end
           else completes (v_main_page e))
        end
    | _, _ => false
    end
  end.

(* a driver was obtained and the page came with a title *)
Definition page_loaded (e : visit_env) : bool :=
  match v_driver e, v_title e with
  | Returns true, Returns title => negb (String.eqb title "")
  | _, _ => false
  end.

(* the three counters of the invariant *)
Definition tracked (k : string) : Prop :=
  k = "visits" ∨ k = "successful_visits" ∨ k = "failed_visits".

Definition stats_consistent (b : bot) : Prop :=
  stat "visits" b = stat "successful_visits" b + stat "failed_visits" b.

(** *** The lists of keywords and URLs, and the tracking URLs *)

Definition set_tracking (m : gmap string string) (b : bot) : bot :=
  {| scheduler := scheduler b; keywords := keywords b; urls := urls b;
     running := running b; paused := paused b; worker_threads := worker_threads b;
     task_queue := task_queue b; custom_tracking_urls := m;
     stats := stats b; start_time := start_time b; last_visit := last_visit b |}.

(* if keyword and keyword not in self.keywords: self.keywords.append(keyword) *)
Definition add_keyword (keyword : string) (b : bot) : bot :=
  if negb (String.eqb keyword "") && negb (bool_decide (keyword ∈ keywords b))
  then set_lists (keywords b ++ [keyword]) (urls b) b
  else b.

Definition add_url (url : string) (b : bot) : bot :=
  if negb (String.eqb url "") && negb (bool_decide (url ∈ urls b))
  then set_lists (keywords b) (urls b ++ [url]) b
  else b.

Definition add_tracking_url (original_url tracking_url : string) (b : bot) : bot :=
  set_tracking (<[original_url := tracking_url]> (custom_tracking_urls b)) b.

(** *** Further notions *)

(* a worker alone with the pool: one turn of its loop per world *)
Definition worker_turns (ws : list world) (b : bot) : bot :=
  foldl (λ b w, (worker_iteration w b).1) b ws.

(* an upper bound on the turns a task can still cause: a search is one
   turn and at most three visits *)
Definition task_weight (t : task) : nat :=
  match t with Search _ => 4 | Visit _ => 1 end.

Definition backlog (q : list task) : nat :=
  foldr (λ t n, task_weight t + n)%nat 0%nat q.

(* the sums over the device counters and over the referrer counters *)
Definition device_total (b : bot) : Z :=
  stat "desktop_visits" b + stat "mobile_visits" b + stat "tablet_visits" b.

Definition traffic_total (b : bot) : Z :=
  stat "search_traffic" b + stat "social_traffic" b +
  stat "direct_traffic" b + stat "referral_traffic" b.

Definition switches (b : bot) : Z := stat "vpn_switches" b + stat "proxy_switches" b.

(* everything of the bot that a visit or a search has no business with:
   the queue, the two flags, the threads, the lists and the tracking URLs *)
Definition pool_of (b : bot)
  : list task * bool * bool * list bool * list string * list string * gmap string string :=
  (task_queue b, running b, paused b, worker_threads b, keywords b, urls b,
   custom_tracking_urls b).

(* the scheduler together with the above: all but the statistics and stamps *)
Definition core (b : bot) := (scheduler b, pool_of b).

End TrafficBot.

(** ** The behaviour profile: [class BehaviorProfile] *)

Module BehaviorProfile.

(* itertools.accumulate(weights) *)
Fixpoint accumulate (acc : Q) (weights : list Q) : list Q :=
  match weights with
  | [] => []
  | w :: rest => (acc + w)%Q :: accumulate (acc + w)%Q rest
  end.

Definition Qltb (x y : Q) : bool := negb (Qle_bool y x).

(* bisect.bisect_right(a, x, lo, hi): the loop
     while lo < hi: mid = (lo + hi) // 2
                    if x < a[mid]: hi = mid  else: lo = mid + 1
   run for at most [fuel] turns *)
Fixpoint bisect (fuel : nat) (a : list Q) (x : Q) (lo hi : nat) : nat :=
  match fuel with
  | O => lo
  | S fuel' =>
    if (lo <? hi)%nat then
      let mid := ((lo + hi) / 2)%nat in
      if Qltb x (nth mid a 0%Q) then bisect fuel' a x lo mid
      else bisect fuel' a x (mid + 1)%nat hi
    else lo
  end.

(* random.choices(population, weights=weights, k=1)[0], where [u] is what
   random.random() yields, a number of [0, 1); None stands for the
   IndexError or ValueError that comes out for an empty population, for
   lists of different lengths or for a total weight that is not positive *)
Definition choices {A} (population : list A) (weights : list Q) (u : Q) : option A :=
  let n := length population in
  let cum_weights := accumulate 0 weights in
  match last cum_weights with
  | None => None
  | Some total =>
    if negb (length cum_weights =? n)%nat then None
    else if Qle_bool total 0 then None
    else population !! bisect n cum_weights (u * total)%Q 0 (n - 1)
  end.

(* the attributes that the sampling functions read; a dict is the list of
   its items in the order of insertion *)
Record profile : Type := mkProfile {
  min_visit_duration : Z;
  max_visit_duration : Z;
  max_subpage_visits : Z;
  device_types : list (string * Q);
  bounce_rate : Q;
  referrer_types : list (string * Q);
  search_engines : list (string * Q);
  social_sources : list (string * Q)
}.

(* __init__ *)
Definition init : profile :=
  {| min_visit_duration := 60;
     max_visit_duration := 180;
     max_subpage_visits := 3;
     device_types := [("desktop", 6 # 10); ("mobile", 3 # 10); ("tablet", 1 # 10)];
     bounce_rate := 15 # 100;
     referrer_types :=
       [("search", 40 # 100); ("social", 25 # 100); ("direct", 20 # 100);
        ("referral", 15 # 100)];
     search_engines :=
       [("google", 75 # 100); ("bing", 15 # 100); ("yahoo", 5 # 100);
        ("duckduckgo", 5 # 100)];
     social_sources :=
       [("facebook", 35 # 100); ("twitter", 25 # 100); ("instagram", 15 # 100);
        ("linkedin", 10 # 100); ("pinterest", 10 # 100); ("reddit", 5 # 100)] |}.

Definition pick (table : list (string * Q)) (u : Q) : option string :=
  choices (map fst table) (map snd table) u.

Definition get_visit_duration (p : profile) : Z * Z :=
  (min_visit_duration p, max_visit_duration p).

Definition get_random_device (p : profile) (u : Q) : option string :=
  pick (device_types p) u.

(* one draw for the kind of referrer, a second one for the engine or site *)
Definition get_random_referrer (p : profile) (u1 u2 : Q) : option string :=
  match pick (referrer_types p) u1 with
  | None => None
  | Some ref_type =>
    if String.eqb ref_type "search" then
      option_map (λ e, "search_" ++ e)%string (pick (search_engines p) u2)
    else if String.eqb ref_type "social" then
      option_map (λ e, "social_" ++ e)%string (pick (social_sources p) u2)
    else Some ref_type
  end.

Definition should_bounce (p : profile) (u : Q) : bool := Qltb u (bounce_rate p).

(* [max(1, max_subpage_visits - i) for i in range(max_subpage_visits)] *)
Definition subpage_weights (p : profile) : list Q :=
  map (λ i, inject_Z (Z.max 1 (max_subpage_visits p - i)))
      (seqZ 0 (max_subpage_visits p)).

Definition get_subpage_count (p : profile) (u1 u2 : Q) : option Z :=
  if should_bounce p u1 then Some 0
  else choices (seqZ 1 (max_subpage_visits p)) (subpage_weights p) u2.

End BehaviorProfile.

(** ** The control plane: [api/bot_api.py] *)

Module BotApi.

Import TrafficBot.

(* the "status" of the JSON answer *)
Inductive status : Type := Success | Warning.

(* start_bot, once [workers] and MAX_WORKERS have been read as integers;
   [kws] and [us] are the 'keywords' and 'urls' of the request, if any *)
Definition start_bot (now : datetime) (workers max_workers : Z)
    (kws us : option (list string)) (b : bot) : bot * status :=
  let num_workers := if max_workers <? workers then max_workers else workers in
  let b := match kws with Some ks => set_lists ks (urls b) b | None => b end in
  let b := match us with Some l => set_lists (keywords b) l b | None => b end in
  if negb (running b) then (start now (Z.to_nat num_workers) b, Success)
  else (b, Warning).

Definition stop_bot (b : bot) : bot * status :=
  if running b then (stop b, Success) else (b, Warning).

Definition pause_bot (b : bot) : bot * status :=
  if running b && negb (paused b) then (pause b, Success) else (b, Warning).

Definition resume_bot (b : bot) : bot * status :=
  if running b && paused b then (resume b, Success) else (b, Warning).

Definition remove_tracking_url (original_url : string) (b : bot) : bot * status :=
  if bool_decide (is_Some (custom_tracking_urls b !! original_url))
  then (set_tracking (delete original_url (custom_tracking_urls b)) b, Success)
  else (b, Warning).

End BotApi.

(** * Concrete schedules used in the examples *)

Module Scenario.

Import TrafficScheduler.

(* 2024-01-01, a Monday, has ordinal 738886 *)
Definition monday (h m : Z) : datetime := mkDatetime 738886 h m 0 0.
Definition tuesday (h m : Z) : datetime := mkDatetime 738887 h m 0 0.

(* a generator that always yields 0, and one that counts *)
Definition draws_zero : nat → Z := λ _, 0.
Definition draws_count : nat → Z := λ k, Z.of_nat k.

(* a fresh scheduler given an hourly target of 5 on Monday 09:00: the whole
   of January 2024, every hour of every day, 5 visits per bucket *)
Definition january_5_per_hour : sched :=
  state_of (set_target (monday 9 0) draws_zero "hourly" 5 init).

(* sixty days from Monday 09:00, hour 9 only *)
Definition sixty_days : sched :=
  set_dates (Some (monday 9 0)) (Some (mkDatetime (738886 + 59) 23 0 0 0))
            (set_hours [9] init).


(* one day, hours 0 and 1, a total of 10, for the weighted modes *)
Definition two_buckets (mode : string) : sched :=
  set_mode mode
    (set_hours [0; 1]
       (set_dates (Some (monday 0 0)) (Some (monday 23 0))
          (set_target_visits (mkTargets 0 0 0 10) init))).

(* Monday, hour 9: a table with the single entry 5, and five visits recorded *)
Definition bucket_full : sched :=
  Nat.iter 5 record_visit (set_table {[ (738886, 9) := 5 ]} init).

Import TrafficBot.

(* a search that finds five links outside google.com, and one inside *)
Definition five_links : search_env :=
  {| s_now := monday 9 0;
     s_vpn_providers := false; s_coin := false; s_vpn_chosen := false;
     s_proxies := false;
     s_driver := Returns true;
     s_get := Returns tt;
     s_captcha_page := Returns false;
     s_solved := Returns false;
     s_links :=
       [Returns (Some "https://www.google.com/preferences");
        Returns (Some "https://a.example/1"); Returns (Some "https://b.example/2");
        Returns None;
        Returns (Some "https://c.example/3"); Returns (Some "https://d.example/4");
        Raises;
        Returns (Some "https://e.example/5")] |}.

(* a visit that bounces *)
Definition bounce_visit : visit_env :=
  {| v_now := monday 9 0; v_stamp := monday 9 0;
     v_vpn_providers := false; v_coin := false; v_vpn_chosen := false;
     v_proxies := true;
     v_device := "mobile";
     v_driver := Returns true;
     v_referrer := "search_google";
     v_get := Returns tt;
     v_title := Returns "Home";
     v_captcha_page := Returns false;
     v_solved := Returns false;
     v_bounce := true;
     v_bounce_scroll := Returns tt;
     v_subpage_count := 0;
     v_main_page := {| ads_found := false; completes := true |};
     v_subpages := [] |}.

(* a visit in which the driver raises while loading the page *)
Definition broken_visit : visit_env :=
  {| v_now := monday 9 0; v_stamp := monday 9 0;
     v_vpn_providers := true; v_coin := true; v_vpn_chosen := true;
     v_proxies := true;
     v_device := "desktop";
     v_driver := Returns true;
     v_referrer := "direct";
     v_get := Raises;
     v_title := Returns "Home";
     v_captcha_page := Returns false;
     v_solved := Returns false;
     v_bounce := false;
     v_bounce_scroll := Returns tt;
     v_subpage_count := 2;
     v_main_page := {| ads_found := true; completes := true |};
     v_subpages := [Opened {| ads_found := false; completes := false |}; NoLinks] |}.

(* a bot whose scheduler is active on Tuesdays only *)
Definition tuesdays_only : bot :=
  TrafficBot.init (set_days [1] TrafficScheduler.init).

Definition quiet_world : world :=
  {| w_search := five_links; w_visit := bounce_visit |}.

(* a pool started with one keyword and no URL *)
Definition one_keyword : bot :=
  start (monday 9 0) 1 (set_lists ["rocq"] [] (TrafficBot.init TrafficScheduler.init)).

End Scenario.

(** * Properties of the scheduler *)

Module SchedulerProps.

Import TrafficScheduler.

Lemma mem_true x xs : mem x xs = true ↔ x ∈ xs.
Proof. unfold mem. apply bool_decide_eq_true. Qed.

Lemma mem_false x xs : mem x xs = false ↔ x ∉ xs.
Proof. unfold mem. apply bool_decide_eq_false. Qed.

(** *** Division and ceiling *)

Lemma pydiv_nonzero a d : d ≠ 0 → pydiv a (inject_Z d) = Some (a / inject_Z d)%Q.
Proof.
  intros Hd. unfold pydiv.
  destruct (Qeq_bool (inject_Z d) 0) eqn:E; [|done].
  apply Qeq_bool_eq in E. unfold Qeq in E. simpl in E. lia.
Qed.

Lemma pydiv_zero a : pydiv a (inject_Z 0) = None.
Proof. reflexivity. Qed.






(** *** The derivation of the targets *)

Ltac case_tests :=
  repeat match goal with
  | |- context [0 <? ?x] => destruct (Z.ltb_spec 0 x)
  | H : context [0 <? ?x] |- _ => destruct (Z.ltb_spec 0 x)
  end.


Lemma derive_monthly_no_day total_days ahc tv :
  0 < monthly tv → derive_targets total_days 0 ahc tv = inl ZeroDivisionError.
Proof.
  intros Hm. unfold derive_targets.
  destruct (Z.ltb_spec 0 (monthly tv)); [|lia]. by rewrite pydiv_zero.
Qed.

Lemma derive_unset total_days adc ahc tv :
  authoritative tv = None → derive_targets total_days adc ahc tv = inr tv.
Proof.
  unfold authoritative, derive_targets. by case_tests.
Qed.



Lemma derive_again total_days adc ahc tv tv1 :
  0 < monthly tv ∨ authoritative tv = None →
  derive_targets total_days adc ahc tv = inr tv1 →
  derive_targets total_days adc ahc tv1 = inr tv1.
Proof.
  intros [Hm|Hn] H.
  - unfold derive_targets in *.
    destruct (Z.ltb_spec 0 (monthly tv)); [|lia].
    destruct (pydiv (inject_Z (monthly tv)) (inject_Z adc)) as [q|] eqn:E1; [|done].
    destruct (pydiv q (inject_Z ahc)) as [q'|] eqn:E2; [|done].
    injection H as <-. simpl.
    destruct (Z.ltb_spec 0 (monthly tv)); [|lia].
    by rewrite E1, E2.
  - rewrite derive_unset in H by done. injection H as <-. by apply derive_unset.
Qed.

Lemma derive_total_nonneg total_days adc ahc tv tv1 :
  nonneg_targets tv → 0 ≤ adc → 0 ≤ ahc →
  derive_targets total_days adc ahc tv = inr tv1 → 0 ≤ total tv1.
Proof.
  intros (Hh & Hd & Hm & Ht) Hadc Hahc. unfold derive_targets.
  case_tests;
    repeat match goal with
    | |- context [match pydiv ?a ?b with _ => _ end] => destruct (pydiv a b)
    end; intros [= <-]; simpl; try done; nia.
Qed.

(** *** The table does not depend on the generator outside 'random' *)

Lemma distribute_draws mode start ahours offs tv rnd rnd' :
  mode ≠ "random" →
  distribute mode start ahours offs tv rnd = distribute mode start ahours offs tv rnd'.
Proof.
  intros Hm. unfold distribute.
  destruct (String.eqb mode "even"); [done|].
  destruct (String.eqb_spec mode "random"); [done|]. done.
Qed.

(** *** Tables built by successive assignments *)

Lemma foldl_put_lookup kvs : ∀ (tbl : gmap (Z * Z) Z) k v,
  foldl put tbl kvs !! k = Some v → tbl !! k = Some v ∨ (k, v) ∈ kvs.
Proof.
  induction kvs as [|[k0 v0] kvs IH]; intros tbl k v H; simpl in *; [by left|].
  apply IH in H as [H|H]; [|right; by constructor].
  unfold put in H. simpl in H.
  destruct (decide (k0 = k)) as [->|Hne].
  - rewrite lookup_insert_eq in H. injection H as ->. right. constructor.
  - rewrite lookup_insert_ne in H by done. by left.
Qed.

Lemma foldl_put_mono kvs : ∀ (tbl : gmap (Z * Z) Z) k,
  is_Some (tbl !! k) → is_Some (foldl put tbl kvs !! k).
Proof.
  induction kvs as [|[k0 v0] kvs IH]; intros tbl k H; simpl; [done|].
  apply IH. unfold put. simpl.
  destruct (decide (k0 = k)) as [->|Hne].
  - rewrite lookup_insert_eq. eauto.
  - by rewrite lookup_insert_ne.
Qed.

Lemma foldl_put_member kvs : ∀ (tbl : gmap (Z * Z) Z) k,
  k ∈ map fst kvs → is_Some (foldl put tbl kvs !! k).
Proof.
  induction kvs as [|[k0 v0] kvs IH]; intros tbl k H; simpl in *.
  - by apply elem_of_nil in H.
  - apply elem_of_cons in H as [->|H]; [|by apply IH].
    apply foldl_put_mono. unfold put. simpl. rewrite lookup_insert_eq. eauto.
Qed.

Lemma foldl_put_size kvs : ∀ (tbl : gmap (Z * Z) Z),
  NoDup (map fst kvs) → (∀ k, k ∈ map fst kvs → tbl !! k = None) →
  size (foldl put tbl kvs) = (size tbl + length kvs)%nat.
Proof.
  induction kvs as [|[k0 v0] kvs IH]; intros tbl Hnd Hfresh; simpl in *; [lia|].
  apply NoDup_cons in Hnd as [Hk0 Hnd].
  rewrite IH; [|done|].
  - unfold put. simpl. rewrite map_size_insert_None; [lia|].
    apply Hfresh. constructor.
  - intros k Hk. unfold put. simpl. rewrite lookup_insert_ne.
    + apply Hfresh. by constructor.
    + intros ->. done.
Qed.

(* the pairs the two nested loops run through *)
Lemma elem_of_weights_of wf start ahours offs k w :
  (k, w) ∈ weights_of wf start ahours offs ↔
  ∃ d h, d ∈ offs ∧ h ∈ ahours ∧ k = key_of start d h ∧ w = wf d h.
Proof.
  unfold weights_of. rewrite list_elem_of_In, in_flat_map. split.
  - intros (d & Hd & Hin). apply in_map_iff in Hin as (h & [= <- <-] & Hh).
    exists d, h. by rewrite !list_elem_of_In.
  - intros (d & h & Hd & Hh & -> & ->). exists d.
    rewrite <- list_elem_of_In. split; [done|].
    apply in_map_iff. exists h. by rewrite <- list_elem_of_In.
Qed.

Lemma even_table_flat start ahours offs c :
  even_table start ahours offs c =
  foldl put ∅ (weights_of (λ _ _, c) start ahours offs).
Proof.
  unfold even_table, weights_of. generalize (∅ : gmap (Z * Z) Z).
  induction offs as [|d offs IH]; intros tbl; simpl; [done|].
  rewrite foldl_app, IH. f_equal.
  clear. revert tbl. induction ahours as [|h hs IH]; intros tbl; simpl; [done|].
  by rewrite IH.
Qed.

Lemma key_of_inj start d h d' h' :
  key_of start d h = key_of start d' h' → d = d' ∧ h = h'.
Proof. unfold key_of. simpl. intros [= H1 H2]. split; lia. Qed.

Lemma weights_of_keys_NoDup wf start ahours offs :
  NoDup offs → NoDup ahours → NoDup (map fst (weights_of wf start ahours offs)).
Proof.
  intros Ho Hh. unfold weights_of.
  induction Ho as [|d offs Hd Ho IH]; simpl; [constructor|].
  rewrite map_app. apply NoDup_app. split; [|split; [|done]].
  - rewrite map_map. simpl. clear -Hh.
    induction Hh as [|h hs Hh Hhs IH]; simpl; constructor; [|done].
    intros Hin. apply list_elem_of_In, in_map_iff in Hin as (h' & E & Hin).
    apply key_of_inj in E as [_ ->]. by apply list_elem_of_In in Hin.
  - intros k Hk Hk'.
    apply list_elem_of_In, in_map_iff in Hk as ([k1 w1] & <- & Hk).
    apply in_map_iff in Hk as (h & [= <- <-] & _).
    apply list_elem_of_In, in_map_iff in Hk' as ([k2 w2] & E & Hk').
    apply in_flat_map in Hk' as (d' & Hd' & Hk').
    apply in_map_iff in Hk' as (h' & [= <- <-] & _). simpl in E.
    apply key_of_inj in E as [-> _]. by apply list_elem_of_In in Hd'.
Qed.

Lemma weights_of_length wf start ahours offs :
  length (weights_of wf start ahours offs) = (length offs * length ahours)%nat.
Proof.
  unfold weights_of. induction offs as [|d offs IH]; simpl; [done|].
  rewrite length_app, length_map, IH. lia.
Qed.

Lemma active_offsets_NoDup start adays total_days :
  NoDup (active_offsets start adays total_days).
Proof. unfold active_offsets. apply NoDup_filter, NoDup_seqZ. Qed.

Lemma active_offsets_nonneg start adays total_days d :
  d ∈ active_offsets start adays total_days → 0 ≤ d < total_days.
Proof.
  unfold active_offsets. rewrite list_elem_of_filter, elem_of_seqZ. lia.
Qed.

(* a table all of whose buckets hold the same target *)
Lemma table_sum_const (tbl : gmap (Z * Z) Z) c :
  map_Forall (λ _ v, v = c) tbl → table_sum tbl = c * Z.of_nat (size tbl).
Proof.
  unfold table_sum. induction tbl as [|k v tbl Hk IH] using map_ind; intros Hall.
  - rewrite map_fold_empty, map_size_empty. lia.
  - rewrite map_fold_insert_L; [|intros; lia|done].
    rewrite map_size_insert_None by done.
    rewrite IH.
    + rewrite (Hall k v) by apply lookup_insert_eq. lia.
    + intros k' v' Hk'. apply (Hall k'). rewrite lookup_insert_ne; [done|].
      intros ->. congruence.
Qed.

(** *** The weighted modes *)

Lemma weighted_fill_ok ws tw T : tw ≠ 0 → ∀ tbl,
  weighted_fill ws tw T tbl = inr (foldl put tbl (map (share_of tw T) ws)).
Proof.
  intros Htw. induction ws as [|[k w] ws IH]; intros tbl; simpl; [done|].
  rewrite pydiv_nonzero by done. by rewrite IH.
Qed.


Lemma sumZ_pos ws : ws ≠ [] → Forall (λ w, 1 ≤ w) ws → 0 < sumZ ws.
Proof.
  intros Hne Hall. destruct Hall as [|w ws Hw Hall]; [done|]. simpl.
  assert (0 ≤ sumZ ws); [|lia]. clear -Hall.
  induction Hall as [|w' ws' Hw' _ IH]; simpl; lia.
Qed.

Lemma weights_total_pos wf start ahours offs :
  (∀ d h, d ∈ offs → h ∈ ahours → 1 ≤ wf d h) →
  weights_of wf start ahours offs ≠ [] →
  0 < sumZ (map snd (weights_of wf start ahours offs)).
Proof.
  intros Hw Hne. apply sumZ_pos.
  - destruct (weights_of wf start ahours offs); [done|]. done.
  - apply Forall_forall. intros w Hin.
    apply list_elem_of_In, in_map_iff in Hin as ([k w'] & <- & Hin).
    apply list_elem_of_In, elem_of_weights_of in Hin as (d & h & Hd & Hh & _ & ->).
    simpl. by apply Hw.
Qed.

Lemma weighted_table_ok wf start ahours offs T :
  (∀ d h, d ∈ offs → h ∈ ahours → 1 ≤ wf d h) →
  let ws := weights_of wf start ahours offs in
  weighted_table wf start ahours offs T =
  inr (foldl put ∅ (map (share_of (sumZ (map snd ws)) T) ws)).
Proof.
  intros Hw ws. unfold weighted_table. fold ws.
  destruct ws as [|kw ws'] eqn:E; [done|].
  apply weighted_fill_ok.
  pose proof (weights_total_pos wf start ahours offs Hw) as Hpos.
  fold ws in Hpos. rewrite E in Hpos. specialize (Hpos ltac:(done)). lia.
Qed.

Lemma front_weight_pos T d h : 1 ≤ front_weight T d h.
Proof. unfold front_weight. lia. Qed.

Lemma back_weight_pos d h : 0 ≤ d → 0 ≤ h → 1 ≤ back_weight d h.
Proof. unfold back_weight, hour_idx. lia. Qed.

Lemma share_mono w1 w2 tw T :
  w1 ≤ w2 → 0 < tw → 0 ≤ T →
  ceil (inject_Z w1 / inject_Z tw * inject_Z T) ≤
  ceil (inject_Z w2 / inject_Z tw * inject_Z T).
Proof.
  intros Hw Htw HT. apply Qceiling_resp_le.
  apply Qmult_le_compat_r.
  - unfold Qdiv. apply Qmult_le_compat_r.
    + by rewrite <- Zle_Qle.
    + apply Qinv_le_0_compat. change 0%Q with (inject_Z 0). rewrite <- Zle_Qle. lia.
  - change 0%Q with (inject_Z 0). by rewrite <- Zle_Qle.
Qed.

(** *** The 'random' mode *)





(** *** When the second half of calculate_schedule cannot raise *)



Lemma weighted_lookup wf start ahours offs T tw k v :
  foldl put ∅ (map (share_of tw T) (weights_of wf start ahours offs)) !! k = Some v →
  ∃ d h, d ∈ offs ∧ h ∈ ahours ∧ k = key_of start d h ∧
         v = ceil (inject_Z (wf d h) / inject_Z tw * inject_Z T).
Proof.
  intros H. apply foldl_put_lookup in H as [H|H]; [done|].
  apply list_elem_of_In, in_map_iff in H as ([k' w] & [= <- <-] & Hin).
  apply list_elem_of_In, elem_of_weights_of in Hin as (d & h & Hd & Hh & -> & ->).
  by exists d, h.
Qed.

Lemma key_le_hour_idx start d1 h1 d2 h2 :
  0 ≤ h1 < 24 → 0 ≤ h2 < 24 →
  key_le (key_of start d1 h1) (key_of start d2 h2) →
  hour_idx d1 h1 ≤ hour_idx d2 h2.
Proof. unfold key_le, key_of, hour_idx. simpl. lia. Qed.

(* the targets of two buckets of a weighted table, the first not later than
   the second, compare as their weights do *)
Lemma weighted_table_ordered wf start ahours offs T tbl k1 k2 v1 v2 :
  (∀ d h, d ∈ offs → h ∈ ahours → 1 ≤ wf d h) →
  valid_hours ahours → 0 ≤ T →
  weighted_table wf start ahours offs T = inr tbl →
  tbl !! k1 = Some v1 → tbl !! k2 = Some v2 → key_le k1 k2 →
  ((∀ d1 h1 d2 h2, hour_idx d1 h1 ≤ hour_idx d2 h2 → wf d2 h2 ≤ wf d1 h1) → v2 ≤ v1) ∧
  ((∀ d1 h1 d2 h2, hour_idx d1 h1 ≤ hour_idx d2 h2 → wf d1 h1 ≤ wf d2 h2) → v1 ≤ v2).
Proof.
  intros Hw Hv HT Htbl H1 H2 Hle.
  rewrite weighted_table_ok in Htbl by done. injection Htbl as <-.
  apply weighted_lookup in H1 as (d1 & h1 & Hd1 & Hh1 & -> & ->).
  apply weighted_lookup in H2 as (d2 & h2 & Hd2 & Hh2 & -> & ->).
  assert (0 < sumZ (map snd (weights_of wf start ahours offs))) as Htw.
  { apply weights_total_pos; [done|].
    intros E. assert ((key_of start d1 h1, wf d1 h1) ∈ weights_of wf start ahours offs) as Hin.
    { apply elem_of_weights_of. by exists d1, h1. }
    rewrite E in Hin. by apply elem_of_nil in Hin. }
  unfold valid_hours in Hv. rewrite Forall_forall in Hv.
  pose proof (key_le_hour_idx start d1 h1 d2 h2 (Hv _ Hh1) (Hv _ Hh2) Hle) as Hidx.
  split; intros Hmono; apply share_mono; auto.
Qed.

(** *** calculate_schedule as a whole *)

Lemma calculate_schedule_derived now rnd s tv :
  derive_targets (campaign_days now s) (Z.of_nat (length (campaign_offsets now s)))
                 (Z.of_nat (length (active_hours s))) (target_visits s) = inr tv →
  let s' := state_of (calculate_schedule now rnd s) in
  target_visits s' = tv ∧
  hourly_visits s' = hourly_visits s ∧
  hourly_targets s' =
    match distribute (schedule_mode s) (campaign_start now s) (active_hours s)
                     (campaign_offsets now s) tv rnd with
    | inl (_, tbl) | inr tbl => tbl
    end ∧
  (∀ tbl, distribute (schedule_mode s) (campaign_start now s) (active_hours s)
                     (campaign_offsets now s) tv rnd = inr tbl →
          calculate_schedule now rnd s = Done s').
Proof.
  intros Hd s'. subst s'. unfold calculate_schedule. simpl. rewrite Hd. simpl.
  destruct (distribute _ _ _ _ _ _) as [[e tbl]|tbl]; simpl; [done|]. done.
Qed.

Lemma calculate_schedule_Done now rnd s s1 :
  calculate_schedule now rnd s = Done s1 →
  ∃ tv tbl,
    derive_targets (campaign_days now s) (Z.of_nat (length (campaign_offsets now s)))
                   (Z.of_nat (length (active_hours s))) (target_visits s) = inr tv ∧
    distribute (schedule_mode s) (campaign_start now s) (active_hours s)
               (campaign_offsets now s) tv rnd = inr tbl ∧
    s1 = set_table tbl (set_target_visits tv
           (set_dates (Some (campaign_start now s)) (Some (campaign_end now s)) s)).
Proof.
  unfold calculate_schedule. simpl.
  destruct (derive_targets _ _ _ _) as [e|tv] eqn:Hd; [done|]. simpl.
  destruct (distribute _ _ _ _ _ _) as [[e tbl]|tbl] eqn:Ht; [done|].
  intros [= <-]. by exists tv, tbl.
Qed.

Lemma set_period_store p v tv : set_period (period_name p) v tv = Some (store p v tv).
Proof. by destruct p. Qed.

Lemma store_negative_unset p v tv :
  v < 0 → authoritative tv = None → authoritative (store p v tv) = None.
Proof.
  unfold authoritative. intros Hv.
  destruct p; simpl; case_tests; try done; lia.
Qed.

(** Every rejection returns before line 247: the object is not touched. *)
Lemma gate_reject_unchanged now s :
  (should_generate_traffic now s).2 = false → (should_generate_traffic now s).1 = s.
Proof.
  unfold should_generate_traffic.
  destruct (before_start now s); [done|].
  destruct (after_end now s); [done|].
  destruct (inactive now s); [done|].
  destruct (quota_reached now s); [done|]. simpl. discriminate.
Qed.

Lemma gate_quota_reject now s t :
  hourly_targets s !! hour_key now = Some t → t ≤ hourly_visits s →
  should_generate_traffic now s = (s, false).
Proof.
  intros Hk Ht. unfold should_generate_traffic.
  destruct (before_start now s); [done|].
  destruct (after_end now s); [done|].
  destruct (inactive now s); [done|].
  unfold quota_reached. rewrite Hk.
  destruct (Z.leb_spec t (hourly_visits s)); [done|lia].
Qed.

Lemma record_visit_table s : hourly_targets (record_visit s) = hourly_targets s.
Proof. reflexivity. Qed.

Lemma iter_record_visit n s :
  let s' := Nat.iter n record_visit s in
  hourly_visits s' = hourly_visits s + Z.of_nat n ∧
  daily_visits s' = daily_visits s + Z.of_nat n ∧
  monthly_visits s' = monthly_visits s + Z.of_nat n ∧
  total_visits s' = total_visits s + Z.of_nat n ∧
  hourly_targets s' = hourly_targets s.
Proof.
  induction n as [|n IH]; simpl.
  - repeat split; lia.
  - destruct IH as (H1 & H2 & H3 & H4 & H5). simpl in *.
    rewrite H1, H2, H3, H4, H5. repeat split; lia.
Qed.

Lemma run_closed_bucket k t cs : ∀ s,
  hourly_targets s !! k = Some t → t ≤ hourly_visits s →
  Forall (in_bucket k) cs →
  Forall (λ b, b = false) (run cs s).2.
Proof.
  induction cs as [|c cs IH]; intros s Hk Ht Hcs; simpl; [constructor|].
  inversion Hcs as [|? ? Hc Hcs']; subst.
  destruct c as [now|]; simpl in *.
  - subst k. rewrite (gate_quota_reject now s t Hk Ht).
    specialize (IH s Hk Ht Hcs').
    destruct (run cs s) as [s2 bs]. simpl in *. by constructor.
  - apply IH; [done| |done]. simpl. lia.
Qed.

(** C4. The gate answers false, and leaves the scheduler as it is, whenever
    [now] is before [start_date] or after [end_date], or the hour of [now] is
    not among the active hours, or its weekday not among the active days;
    counters and table are arbitrary. *)
Theorem gate_rejects_outside_window (now : datetime) (s : sched) :
  (∃ sd, start_date s = Some sd ∧ dt_ltb now sd = true) ∨
  (∃ ed, end_date s = Some ed ∧ dt_ltb ed now = true) ∨
  dt_hour now ∉ active_hours s ∨
  weekday now ∉ active_days s →
  should_generate_traffic now s = (s, false).
Proof.
  intros H. unfold should_generate_traffic.
  destruct (before_start now s) eqn:Hb; [done|].
  destruct (after_end now s) eqn:Ha; [done|].
  destruct (inactive now s) eqn:Hi; [done|].
  exfalso. destruct H as [(sd & Hs & Hlt)|[(ed & He & Hlt)|[Hh|Hd]]].
  - unfold before_start in Hb. rewrite Hs in Hb. congruence.
  - unfold after_end in Ha. rewrite He in Ha. congruence.
  - unfold inactive in Hi. apply mem_false in Hh. rewrite Hh in Hi. discriminate.
  - unfold inactive in Hi. apply mem_false in Hd. rewrite Hd in Hi.
    by rewrite orb_true_r in Hi.
Qed.

(* A Tuesday at 09:00 for a scheduler active on Mondays only. *)
Lemma gate_rejects_outside_window_witness :
  (weekday (Scenario.tuesday 9 0) ∉ active_days (set_days [0] init)) ∧
  should_generate_traffic (Scenario.tuesday 9 0) (set_days [0] init)
  = (set_days [0] init, false).
Proof.
  assert (weekday (Scenario.tuesday 9 0) ∉ active_days (set_days [0] init)) as H.
  { change (1 ∉ [0]). apply not_elem_of_cons. split; [discriminate|].
    apply not_elem_of_nil. }
  split; [exact H|].
  apply gate_rejects_outside_window. right; right; right. exact H.
Defined.

(** C5. Once the live hourly counter has reached the target [t] held by the
    table for a bucket, every check made within that bucket is answered
    false, whatever further visits are recorded in between; [record_visit]
    adds one to each of the four counters (so five of them take a counter
    from 0 to the target 5); and where the table has no entry for the
    current bucket, the answer is that of the window and calendar tests
    alone. *)
Theorem quota_enforced_within_bucket (s : sched) (now : datetime) :
  (∀ t cs,
     hourly_targets s !! hour_key now = Some t → t ≤ hourly_visits s →
     Forall (in_bucket (hour_key now)) cs →
     should_generate_traffic now s = (s, false) ∧
     Forall (λ b, b = false) (run cs s).2) ∧
  (∀ n, let s' := Nat.iter n record_visit s in
     hourly_visits s' = hourly_visits s + Z.of_nat n ∧
     daily_visits s' = daily_visits s + Z.of_nat n ∧
     monthly_visits s' = monthly_visits s + Z.of_nat n ∧
     total_visits s' = total_visits s + Z.of_nat n ∧
     hourly_targets s' = hourly_targets s) ∧
  (hourly_targets s !! hour_key now = None →
     (should_generate_traffic now s).2 = window_permits now s).
Proof.
  split; [|split].
  - intros t cs Hk Ht Hcs. split.
    + by apply gate_quota_reject with t.
    + by apply run_closed_bucket with (hour_key now) t.
  - intros n. apply iter_record_visit.
  - intros Hk. unfold should_generate_traffic, window_permits, quota_reached.
    rewrite Hk.
    destruct (before_start now s); [done|].
    destruct (after_end now s); [done|].
    by destruct (inactive now s).
Qed.


(* Monday, hour 9, target 5 reached: a check, a further visit, a check. *)
Lemma quota_enforced_within_bucket_witness :
  let s := Scenario.bucket_full in
  let now := Scenario.monday 9 30 in
  let cs := [Check (Scenario.monday 9 40); Record; Check (Scenario.monday 9 59)] in
  hourly_targets s !! hour_key now = Some 5 ∧ 5 ≤ hourly_visits s ∧
  Forall (in_bucket (hour_key now)) cs ∧
  should_generate_traffic now s = (s, false) ∧
  Forall (λ b, b = false) (run cs s).2 ∧
  hourly_visits (Nat.iter 5 record_visit (set_table {[ (738886, 9) := 5 ]} init)) = 0 + 5.
Proof.
  intros s now cs.
  assert (hourly_targets s !! hour_key now = Some 5) as H1 by reflexivity.
  assert (5 ≤ hourly_visits s) as H2 by (vm_compute; discriminate).
  assert (Forall (in_bucket (hour_key now)) cs) as H3 by (repeat constructor).
  destruct (quota_enforced_within_bucket s now) as (Hq & _ & _).
  destruct (quota_enforced_within_bucket (set_table {[ (738886, 9) := 5 ]} init) now)
    as (_ & Hn & _).
  destruct (Hq 5 cs H1 H2 H3) as [Ha Hb].
  split; [exact H1|]. split; [exact H2|]. split; [exact H3|].
  split; [exact Ha|]. split; [exact Hb|]. exact (proj1 (Hn 5%nat)).
Defined.

(** C1. The rollover of lines 247-258 is reached only on the permitting
    path.  A scheduler with 5 visits per bucket permits on Monday at 09:00
    (rolling the markers over to hour 9); five visits are recorded; at 10:00
    the check is rejected by the quota test of line 244 against the stale
    counter, and the counter and the marker are left as they were: hour 10
    never sees a fresh counter, and neither does any later bucket. *)
Theorem rollover_skipped_on_rejection :
  let s0 := Scenario.january_5_per_hour in
  let s1 := (should_generate_traffic (Scenario.monday 9 0) s0).1 in
  let s2 := Nat.iter 5 record_visit s1 in
  let s3 := (should_generate_traffic (Scenario.monday 10 0) s2).1 in
  (should_generate_traffic (Scenario.monday 9 0) s0).2 = true ∧
  last_hour s1 = Some 9 ∧ hourly_visits s1 = 0 ∧
  hourly_visits s2 = 5 ∧
  window_permits (Scenario.monday 10 0) s2 = true ∧
  (should_generate_traffic (Scenario.monday 10 0) s2).2 = false ∧
  hourly_visits s3 = 5 ∧ last_hour s3 = Some 9 ∧
  (should_generate_traffic (Scenario.tuesday 14 30) s3).2 = false.
Proof. vm_compute. repeat split; reflexivity. Qed.


(** C3, refuted as stated.  Sixty days with a total of 100: the first call
    derives a monthly target of 50, the second call finds that monthly
    target positive, takes it as given and overwrites the total with it.  In
    'random' mode the table is drawn anew at every call. *)
Lemma recalculation_not_idempotent :
  let a := state_of (set_target (Scenario.monday 9 0) Scenario.draws_zero "total" 100
                                Scenario.sixty_days) in
  let b := state_of (calculate_schedule (Scenario.monday 9 0) Scenario.draws_zero a) in
  let r := set_mode "random" (set_hours [9; 10] Scenario.sixty_days) in
  let c := state_of (set_target (Scenario.monday 9 0) Scenario.draws_zero "monthly" 60 r) in
  let d := state_of (calculate_schedule (Scenario.monday 9 0) Scenario.draws_count c) in
  target_visits a = mkTargets 2 2 50 100 ∧
  target_visits b = mkTargets 1 1 50 50 ∧
  hourly_targets a !! (738886, 9) = Some 2 ∧
  hourly_targets b !! (738886, 9) = Some 1 ∧
  target_visits c = target_visits d ∧
  hourly_targets c !! (738887, 9) = Some 1 ∧
  hourly_targets d !! (738887, 9) = Some 0.
Proof. vm_compute. repeat split; reflexivity. Qed.

(** C3, amended.  When the monthly target is positive, or no target is
    positive, and the mode is not 'random', a call that returns has reached
    a fixed point: calling again, at any later time and with any generator,
    returns the very same scheduler, target fields and table included. *)
Theorem calculate_schedule_idempotent (now now' : datetime) (rnd rnd' : nat → Z)
    (s s1 : sched) :
  0 < monthly (target_visits s) ∨ authoritative (target_visits s) = None →
  schedule_mode s ≠ "random" →
  calculate_schedule now rnd s = Done s1 →
  calculate_schedule now' rnd' s1 = Done s1.
Proof.
  intros Hauth Hmode H.
  unfold calculate_schedule, campaign_offsets, campaign_days in *.
  set (en := campaign_end now s) in *. set (st := campaign_start now s) in *.
  destruct (derive_targets _ _ _ _) as [e|tv] eqn:Hd; [done|].
  destruct (distribute _ _ _ _ _ _) as [[e tbl]|tbl] eqn:Ht; [done|].
  injection H as <-. unfold campaign_end, campaign_start. simpl in *.
  rewrite (derive_again _ _ _ _ _ Hauth Hd). simpl.
  rewrite (distribute_draws _ _ _ _ _ rnd' rnd Hmode), Ht. reflexivity.
Qed.

Lemma calculate_schedule_idempotent_witness :
  let s := set_target_visits (mkTargets 0 0 60 0) Scenario.sixty_days in
  let s1 := state_of (calculate_schedule (Scenario.monday 9 0) Scenario.draws_zero s) in
  (0 < monthly (target_visits s) ∨ authoritative (target_visits s) = None) ∧
  schedule_mode s ≠ "random" ∧
  calculate_schedule (Scenario.tuesday 11 0) Scenario.draws_count s1 = Done s1.
Proof.
  intros s s1.
  assert (0 < monthly (target_visits s) ∨ authoritative (target_visits s) = None) as H1
    by (left; reflexivity).
  assert (schedule_mode s ≠ "random") as H2 by discriminate.
  split; [exact H1|]. split; [exact H2|].
  apply (calculate_schedule_idempotent (Scenario.monday 9 0) (Scenario.tuesday 11 0)
           Scenario.draws_zero Scenario.draws_count s s1 H1 H2).
  vm_compute. reflexivity.
Defined.






(** C6. After a call of calculate_schedule that returns: in 'even' mode
    every bucket holds the hourly target, so the targets of all buckets sum
    to the hourly target times the number of buckets (which, for active
    hours listed once each, is active days times active hours); in
    'frontloaded' mode, for targets that are not negative and active hours
    within 0..23, the target of a bucket is at least that of any later
    bucket, the first and the last in particular, and in 'backloaded' mode
    at most that. *)
Theorem distribution_modes (now : datetime) (rnd : nat → Z) (s s' : sched) :
  calculate_schedule now rnd s = Done s' →
  (schedule_mode s = "even" →
     map_Forall (λ _ v, v = hourly (target_visits s')) (hourly_targets s') ∧
     table_sum (hourly_targets s') =
       hourly (target_visits s') * Z.of_nat (size (hourly_targets s')) ∧
     (NoDup (active_hours s) →
      size (hourly_targets s') =
        (length (campaign_offsets now s) * length (active_hours s))%nat)) ∧
  (nonneg_targets (target_visits s) → valid_hours (active_hours s) →
   ∀ k1 k2 v1 v2,
     hourly_targets s' !! k1 = Some v1 → hourly_targets s' !! k2 = Some v2 →
     key_le k1 k2 →
     (schedule_mode s = "frontloaded" → v2 ≤ v1) ∧
     (schedule_mode s = "backloaded" → v1 ≤ v2)).
Proof.
  intros Hdone.
  apply calculate_schedule_Done in Hdone as (tv & tbl & Hd & Ht & ->). simpl.
  split.
  - intros Hmode. rewrite Hmode in Ht. simpl in Ht. injection Ht as <-.
    rewrite even_table_flat.
    assert (map_Forall (λ _ v, v = hourly tv)
              (foldl put ∅ (weights_of (λ _ _, hourly tv) (campaign_start now s)
                              (active_hours s) (campaign_offsets now s)))) as Hall.
    { intros k v Hk. apply foldl_put_lookup in Hk as [Hk|Hk]; [done|].
      by apply elem_of_weights_of in Hk as (d & h & _ & _ & _ & ->). }
    split; [done|]. split; [by apply table_sum_const|].
    intros Hnd. rewrite foldl_put_size.
    + rewrite map_size_empty, weights_of_length. lia.
    + apply weights_of_keys_NoDup; [apply active_offsets_NoDup|done].
    + intros. apply lookup_empty.
  - intros Hnn Hv k1 k2 v1 v2 H1 H2 Hle.
    assert (0 ≤ total tv) as HT.
    { apply (derive_total_nonneg _ _ _ _ _ Hnn) in Hd; [done|lia|lia]. }
    assert (∀ d, d ∈ campaign_offsets now s → 0 ≤ d) as Hoffs.
    { intros d Hin. apply active_offsets_nonneg in Hin. lia. }
    unfold valid_hours in Hv. pose proof Hv as Hv'. rewrite Forall_forall in Hv'.
    split; intros Hmode; rewrite Hmode in Ht; simpl in Ht.
    + eapply (weighted_table_ordered _ _ _ _ _ _ k1 k2 v1 v2) in Ht as [Hfront _];
        eauto using front_weight_pos.
      apply Hfront. intros. unfold front_weight. lia.
    + eapply (weighted_table_ordered _ _ _ _ _ _ k1 k2 v1 v2) in Ht as [_ Hback];
        eauto.
      * apply Hback. intros. unfold back_weight. lia.
      * intros d h Hd' Hh'. apply back_weight_pos; [auto|]. apply (Hv' _ Hh').
Qed.


(* Hours 0 and 1 of one Monday with a total of 10: weights 2 and 1 when
   front-loaded; and the January schedule of 5 per hour in 'even' mode. *)
Lemma distribution_modes_witness :
  let now := Scenario.monday 0 0 in
  let f := Scenario.two_buckets "frontloaded" in
  let f' := state_of (calculate_schedule now Scenario.draws_zero f) in
  let e := set_target_visits (mkTargets 5 0 0 0) init in
  let e' := Scenario.january_5_per_hour in
  (calculate_schedule now Scenario.draws_zero f = Done f' ∧
   nonneg_targets (target_visits f) ∧ valid_hours (active_hours f) ∧
   hourly_targets f' !! (738886, 0) = Some 7 ∧
   hourly_targets f' !! (738886, 1) = Some 4 ∧
   key_le (738886, 0) (738886, 1) ∧ schedule_mode f = "frontloaded") ∧
  4 ≤ 7 ∧
  (calculate_schedule (Scenario.monday 9 0) Scenario.draws_zero e = Done e' ∧
   schedule_mode e = "even" ∧ NoDup (active_hours e)) ∧
  table_sum (hourly_targets e') = 5 * Z.of_nat (size (hourly_targets e')) ∧
  size (hourly_targets e') = (31 * 24)%nat.
Proof.
  intros now f f' e e'.
  assert (calculate_schedule now Scenario.draws_zero f = Done f') as H1
    by (vm_compute; reflexivity).
  assert (nonneg_targets (target_visits f)) as H2 by (repeat split; discriminate).
  assert (valid_hours (active_hours f)) as H3
    by (repeat constructor; discriminate).
  assert (hourly_targets f' !! (738886, 0) = Some 7) as H4 by (vm_compute; reflexivity).
  assert (hourly_targets f' !! (738886, 1) = Some 4) as H5 by (vm_compute; reflexivity).
  assert (key_le (738886, 0) (738886, 1)) as H6 by (right; split; [reflexivity|discriminate]).
  assert (schedule_mode f = "frontloaded") as H7 by reflexivity.
  assert (calculate_schedule (Scenario.monday 9 0) Scenario.draws_zero e = Done e') as H8
    by (vm_compute; reflexivity).
  assert (schedule_mode e = "even") as H9 by reflexivity.
  assert (NoDup (active_hours e)) as H10 by apply NoDup_seqZ.
  destruct (distribution_modes now Scenario.draws_zero f f' H1) as [_ Hw].
  destruct (Hw H2 H3 (738886, 0) (738886, 1) 7 4 H4 H5 H6) as [Hfront _].
  destruct (distribution_modes (Scenario.monday 9 0) Scenario.draws_zero e e' H8)
    as [He _].
  destruct (He H9) as (_ & Hsum & Hsize).
  split; [by repeat split|]. split; [exact (Hfront H7)|].
  split; [by repeat split|]. split; [exact Hsum|]. exact (Hsize H10).
Defined.

(** C8, refuted as stated.  set_target does not look at the value: on a
    fresh scheduler an hourly target of -5 is stored, the call returns
    normally, and the recalculated table carries -5 in its buckets. *)
Lemma negative_target_accepted :
  match set_target (Scenario.monday 9 0) Scenario.draws_zero "hourly" (-5) init with
  | Done s' =>
    target_visits init = mkTargets 0 0 0 0 ∧
    target_visits s' = mkTargets (-5) 0 0 0 ∧
    hourly_targets init !! (738886, 9) = None ∧
    hourly_targets s' !! (738886, 9) = Some (-5)
  | Raised _ _ => False
  end.
Proof. vm_compute. repeat split; reflexivity. Qed.

(** C8, amended.  set_schedule_mode given a mode outside the four valid
    ones returns with the scheduler exactly as it was (the refusal goes to
    the error log, nothing is raised).  set_target performs no validation: a
    negative value for one of the four periods, on a scheduler without
    positive target, is stored as that target and is still there after the
    recalculation, which in 'even' mode returns normally. *)
Theorem setters_on_invalid_input (now : datetime) (rnd : nat → Z) (s : sched) :
  (∀ mode, mode ∉ valid_modes → set_schedule_mode now rnd mode s = Done s) ∧
  (∀ p v, v < 0 → authoritative (target_visits s) = None →
     let o := set_target now rnd (period_name p) v s in
     target_visits (state_of o) = store p v (target_visits s) ∧
     target_of p (target_visits (state_of o)) = v ∧
     (schedule_mode s = "even" → o = Done (state_of o))).
Proof.
  split.
  - intros mode Hm. unfold set_schedule_mode.
    by rewrite bool_decide_eq_false_2.
  - intros p v Hv Hn o. subst o. unfold set_target. rewrite set_period_store.
    set (s0 := set_target_visits (store p v (target_visits s)) s).
    pose proof (derive_unset (campaign_days now s0)
                  (Z.of_nat (length (campaign_offsets now s0)))
                  (Z.of_nat (length (active_hours s0))) (target_visits s0)
                  (store_negative_unset p v _ Hv Hn)) as Hd.
    destruct (calculate_schedule_derived now rnd s0 _ Hd) as (Htv & _ & _ & Hret).
    split; [exact Htv|]. split.
    + rewrite Htv. by destruct p.
    + intros Hmode. eapply Hret. subst s0. simpl. rewrite Hmode. reflexivity.
Qed.


(* The mode 'burst', and an hourly target of -5 on the fresh scheduler. *)
Lemma setters_on_invalid_input_witness :
  let now := Scenario.monday 9 0 in
  let o := set_target now Scenario.draws_zero "hourly" (-5) init in
  (("burst" ∉ valid_modes) ∧ -5 < 0 ∧ authoritative (target_visits init) = None ∧
   schedule_mode init = "even") ∧
  set_schedule_mode now Scenario.draws_zero "burst" init = Done init ∧
  target_visits (state_of o) = mkTargets (-5) 0 0 0 ∧
  o = Done (state_of o).
Proof.
  intros now o.
  assert ("burst" ∉ valid_modes) as H1.
  { apply (bool_decide_eq_false_1 ("burst" ∈ valid_modes)). vm_compute. reflexivity. }
  assert (-5 < 0) as H2 by reflexivity.
  assert (authoritative (target_visits init) = None) as H3 by reflexivity.
  assert (schedule_mode init = "even") as H4 by reflexivity.
  destruct (setters_on_invalid_input now Scenario.draws_zero init) as [Hmode Htarget].
  destruct (Htarget Hourly (-5) H2 H3) as (Hstore & _ & Hret).
  split; [by repeat split|]. split; [exact (Hmode "burst" H1)|].
  split; [exact Hstore|]. exact (Hret H4).
Defined.

End SchedulerProps.
(** * Properties of the orchestrator *)

Module BotProps.

Import TrafficScheduler TrafficBot.

(** *** The counters *)

Lemma stat_incr_eq k b : stat k (incr k b) = stat k b + 1.
Proof. unfold stat at 1, incr. simpl. by rewrite lookup_insert_eq. Qed.

Lemma stat_incr_ne k k' b : k ≠ k' → stat k (incr k' b) = stat k b.
Proof. intros H. unfold stat, incr. simpl. by rewrite lookup_insert_ne. Qed.

Ltac tracked_cases H := destruct H as [-> | [-> | ->]].

Lemma stat_count_device k d b : tracked k → stat k (count_device d b) = stat k b.
Proof.
  intros H. unfold count_device.
  repeat (case_match; [tracked_cases H; by rewrite stat_incr_ne|]). done.
Qed.

Lemma stat_count_referrer k r b : tracked k → stat k (count_referrer r b) = stat k b.
Proof.
  intros H. unfold count_referrer.
  repeat (case_match; [tracked_cases H; by rewrite stat_incr_ne|]). done.
Qed.

Lemma stat_choose_identity k v c g p b :
  tracked k → stat k (choose_identity v c g p b).1 = stat k b.
Proof.
  intros H. unfold choose_identity.
  destruct (v && c), g, p; simpl; tracked_cases H;
    rewrite ?stat_incr_ne by done; done.
Qed.

Lemma stat_subpages k n : ∀ ps b, tracked k → stat k (subpages n ps b) = stat k b.
Proof.
  induction n as [|n IH]; intros ps b H; [by destruct ps|].
  destruct ps as [|[| |i] ps]; simpl; try done.
  - by apply IH.
  - rewrite IH by done. destruct (ads_found i); [|done].
    tracked_cases H; by rewrite stat_incr_ne.
Qed.

Lemma stat_solve_captcha k page solved b :
  tracked k → stat k (solve_captcha page solved b).1 = stat k b.
Proof.
  intros H. unfold solve_captcha, bind, call, modify, ret.
  destruct page as [[|]|], solved as [[|]|]; simpl; try done;
    tracked_cases H; by rewrite stat_incr_ne.
Qed.

Lemma stat_interact k i b : tracked k → stat k (interact i b).1 = stat k b.
Proof.
  intros H. unfold interact, bind, call, modify.
  destruct (ads_found i), (completes i); simpl; try done;
    tracked_cases H; by rewrite stat_incr_ne.
Qed.


Lemma tracked_visits : tracked "visits".
Proof. by left. Qed.
Lemma tracked_successful : tracked "successful_visits".
Proof. right. by left. Qed.
Lemma tracked_failed : tracked "failed_visits".
Proof. right. by right. Qed.

#[local] Hint Resolve tracked_visits tracked_successful tracked_failed : core.

Lemma stat_set_scheduler k s b : stat k (set_scheduler s b) = stat k b.
Proof. reflexivity. Qed.

Lemma stat_set_stamps k st lv b : stat k (set_stamps st lv b) = stat k b.
Proof. reflexivity. Qed.

Lemma stat_set_queue k q b : stat k (set_queue q b) = stat k b.
Proof. reflexivity. Qed.

Ltac stats_simpl :=
  repeat first
    [ rewrite stat_set_scheduler
    | rewrite stat_set_stamps
    | rewrite stat_set_queue
    | rewrite stat_incr_eq
    | rewrite stat_incr_ne by done
    | rewrite stat_count_device by auto
    | rewrite stat_count_referrer by auto
    | rewrite stat_subpages by auto ].

Ltac unfold_block :=
  cbv beta iota delta
    [visit_body search_body bind call modify ret interact solve_captcha close_driver record].

Ltac split_env :=
  repeat match goal with
  | |- context [match ?x with _ => _ end] => is_var x; destruct x
  | |- context [if ?x then _ else _] => is_var x; destruct x
  | |- context [String.eqb ?t ""] => is_var t; destruct (String.eqb t "") eqn:?
  end.

(* where the try block of visit_url ends, and with which counters *)
Lemma visit_body_outcome e b :
  let b' := (visit_body e b).1 in
  stat "visits" b' = stat "visits" b ∧
  match (visit_body e b).2 with
  | Ok true =>
    stat "successful_visits" b' = stat "successful_visits" b + 1 ∧
    stat "failed_visits" b' = stat "failed_visits" b ∧
    visit_unexceptional e = true ∧ page_loaded e = true
  | Ok false =>
    stat "successful_visits" b' = stat "successful_visits" b ∧
    stat "failed_visits" b' = stat "failed_visits" b + 1 ∧
    visit_unexceptional e = true ∧ page_loaded e = false
  | Exc =>
    stat "successful_visits" b' = stat "successful_visits" b ∧
    stat "failed_visits" b' = stat "failed_visits" b ∧
    visit_unexceptional e = false
  end.
Proof.
  destruct e as [now stamp vp coin chosen prox dev drv ref get title page solved
                 bounce scroll cnt [ads compl] pages].
  unfold visit_unexceptional, page_loaded. unfold_block. cbn [fst snd
    v_device v_driver v_referrer v_get v_title v_captcha_page v_solved v_bounce
    v_bounce_scroll v_subpage_count v_main_page v_subpages ads_found completes negb].
  repeat (split_env; cbn beta iota zeta delta [negb fst snd]);
    stats_simpl; repeat split; done.
Qed.


(** C10. A call of visit_url rejected by the gate leaves the statistics as
    they are and returns False.  A call that passes the gate adds one to
    [visits] and then one to exactly one of [successful_visits] and
    [failed_visits]: to the successful counter (returning True) exactly when
    no collaborator raised, a driver was obtained and the page had a title,
    the bounce path included; to the failed counter (returning False)
    otherwise.  Hence visits = successful_visits + failed_visits is kept by
    every call. *)
Theorem visit_statistics (e : visit_env) (url : string) (b : bot) :
  let permitted := (should_generate_traffic (v_now e) (scheduler b)).2 in
  let b' := (visit_url e url b).1 in
  let r := (visit_url e url b).2 in
  (permitted = false → stats b' = stats b ∧ r = false) ∧
  (permitted = true →
     stat "visits" b' = stat "visits" b + 1 ∧
     ((r = true ∧
       stat "successful_visits" b' = stat "successful_visits" b + 1 ∧
       stat "failed_visits" b' = stat "failed_visits" b) ∨
      (r = false ∧
       stat "successful_visits" b' = stat "successful_visits" b ∧
       stat "failed_visits" b' = stat "failed_visits" b + 1)) ∧
     (r = true ↔ visit_unexceptional e = true ∧ page_loaded e = true)) ∧
  (stats_consistent b → stats_consistent b').
Proof.
  intros permitted b' r. subst permitted b' r.
  unfold visit_url, check_schedule, stats_consistent.
  destruct (should_generate_traffic (v_now e) (scheduler b)) as [s ok].
  destruct ok; simpl.
  - set (b0 := set_stamps _ _ _).
    pose proof (stat_choose_identity "visits" (v_vpn_providers e) (v_coin e)
                  (v_vpn_chosen e) (v_proxies e) b0 tracked_visits) as Hv.
    pose proof (stat_choose_identity "successful_visits" (v_vpn_providers e) (v_coin e)
                  (v_vpn_chosen e) (v_proxies e) b0 tracked_successful) as Hs.
    pose proof (stat_choose_identity "failed_visits" (v_vpn_providers e) (v_coin e)
                  (v_vpn_chosen e) (v_proxies e) b0 tracked_failed) as Hf.
    destruct (choose_identity _ _ _ _ b0) as [b1 flags]. simpl in Hv, Hs, Hf.
    subst b0. revert Hv Hs Hf. stats_simpl. intros Hv Hs Hf.
    pose proof (visit_body_outcome e b1) as (Hv' & Hout).
    destruct (visit_body e b1) as [b2 [[|]|]]; simpl in *;
      destruct Hout as (Hs' & Hf' & Hrest); unfold close_driver; stats_simpl.
    + destruct Hrest as [Hu Hp].
      split; [done|]. split; [|lia]. intros _.
      split; [lia|]. split; [left; lia|]. done.
    + destruct Hrest as [Hu Hp].
      split; [done|]. split; [|lia]. intros _.
      split; [lia|]. split; [right; lia|].
      split; [done|]. intros [_ Hx]. congruence.
    + split; [done|]. split; [|lia]. intros _.
      split; [lia|]. split; [right; lia|].
      split; [done|]. intros [Hx _]. congruence.
  - split; [done|]. split; [done|]. done.
Qed.


(* A bouncing visit on a fresh bot, a visit whose page load raises, and a
   visit on a Monday for a scheduler active on Tuesdays only. *)
Lemma visit_statistics_witness :
  let b := TrafficBot.init TrafficScheduler.init in
  let url := "https://example.org/" in
  let b1 := (visit_url Scenario.bounce_visit url b).1 in
  let b2 := (visit_url Scenario.broken_visit url b1).1 in
  let c := Scenario.tuesdays_only in
  ((should_generate_traffic (v_now Scenario.bounce_visit) (scheduler b)).2 = true ∧
   (should_generate_traffic (v_now Scenario.broken_visit) (scheduler b1)).2 = true ∧
   (should_generate_traffic (v_now Scenario.bounce_visit) (scheduler c)).2 = false ∧
   stats_consistent b) ∧
  (stat "visits" b1 = 1 ∧ (visit_url Scenario.bounce_visit url b).2 = true) ∧
  (stat "visits" b2 = 2 ∧ (visit_url Scenario.broken_visit url b1).2 = false) ∧
  stats_consistent b2 ∧
  stats (visit_url Scenario.bounce_visit url c).1 = stats c.
Proof.
  intros b url b1 b2 c.
  assert ((should_generate_traffic (v_now Scenario.bounce_visit) (scheduler b)).2 = true)
    as H1 by reflexivity.
  assert ((should_generate_traffic (v_now Scenario.broken_visit) (scheduler b1)).2 = true)
    as H2 by (vm_compute; reflexivity).
  assert ((should_generate_traffic (v_now Scenario.bounce_visit) (scheduler c)).2 = false)
    as H3 by reflexivity.
  assert (stats_consistent b) as H4 by reflexivity.
  destruct (visit_statistics Scenario.bounce_visit url b) as (_ & Hp1 & Hi1).
  destruct (visit_statistics Scenario.broken_visit url b1) as (_ & Hp2 & Hi2).
  destruct (visit_statistics Scenario.bounce_visit url c) as (Hr3 & _ & _).
  destruct (Hp1 H1) as (Hv1 & _ & Hiff1).
  destruct (Hp2 H2) as (Hv2 & Hcase2 & _).
  fold b1 in Hv1, Hi1. fold b2 in Hv2, Hi2.
  split; [by repeat split|]. split; [|split; [|split]].
  - split; [exact Hv1|]. apply Hiff1. split; reflexivity.
  - split; [rewrite Hv2, Hv1; reflexivity|].
    destruct Hcase2 as [(Hr & _)|(Hr & _)]; [|exact Hr].
    vm_compute in Hr. discriminate Hr.
  - exact (Hi2 (Hi1 H4)).
  - exact (proj1 (Hr3 H3)).
Defined.

(** *** The worker *)

Lemma queue_choose_identity v c g p b :
  task_queue (choose_identity v c g p b).1 = task_queue b.
Proof. unfold choose_identity. by destruct (v && c), g, p. Qed.

(* what search_google hands back, and that it leaves the queue alone *)
Lemma search_google_outcome e keyword b :
  task_queue (search_google e keyword b).1 = task_queue b ∧
  (search_google e keyword b).2 =
    if search_succeeds e b then omap keep_href (s_links e) else [].
Proof.
  unfold search_google, check_schedule, search_succeeds.
  destruct (should_generate_traffic (s_now e) (scheduler b)) as [s ok].
  destruct ok; simpl; [|done].
  pose proof (queue_choose_identity (s_vpn_providers e) (s_coin e) (s_vpn_chosen e)
                (s_proxies e) (set_scheduler s b)) as Hq.
  destruct (choose_identity _ _ _ _ _) as [b1 flags]. simpl in Hq.
  destruct e as [now vp coin chosen prox drv get page solved links].
  unfold_block.
  cbn [fst snd s_driver s_get s_captcha_page s_solved s_links negb].
  repeat (split_env; cbn beta iota zeta delta [negb fst snd]); done.
Qed.

(** C7. A worker that takes a Search task off the queue appends to the
    queue one Visit task for each of the first three URLs that search_google
    returns, in their order, and nothing else: min(n, 3) tasks for n URLs.
    A search that runs to the end of its try block returns the links it
    kept; a search that the gate rejects, that gets no driver, or in which a
    collaborator raises returns no URL and leaves the rest of the queue as
    it was.  A pool started with one keyword and no URL has that one Search
    task in its queue. *)
Theorem search_feeds_queue (w : world) (keyword : string) (rest : list task) (b : bot) :
  running b = true → paused b = false → task_queue b = Search keyword :: rest →
  let results := (search_google (w_search w) keyword (set_queue rest b)).2 in
  let b' := (worker_iteration w b).1 in
  task_queue b' = rest ++ map Visit (take 3 results) ∧
  length (task_queue b') = (length rest + Nat.min (length results) 3)%nat ∧
  (search_succeeds (w_search w) b = true →
   results = omap keep_href (s_links (w_search w))) ∧
  (search_succeeds (w_search w) b = false → results = [] ∧ task_queue b' = rest) ∧
  (∀ now n b0, running b0 = false → task_queue b0 = [] → urls b0 = [] →
     keywords b0 = [keyword] → task_queue (start now n b0) = [Search keyword]).
Proof.
  intros Hr Hp Hq results b'. subst results b'.
  unfold worker_iteration. rewrite Hr, Hp, Hq. simpl.
  pose proof (search_google_outcome (w_search w) keyword (set_queue rest b)) as [Hqueue Hres].
  destruct (search_google (w_search w) keyword (set_queue rest b)) as [b1 results].
  simpl in *. rewrite Hqueue.
  change (search_succeeds (w_search w) (set_queue rest b))
    with (search_succeeds (w_search w) b) in Hres.
  split; [done|]. split.
  { rewrite length_app, length_map, length_take. lia. }
  split; [by intros Hs; rewrite Hs in Hres|]. split.
  { intros Hs. rewrite Hs in Hres. subst results. simpl. by rewrite app_nil_r. }
  intros now n b0 Hr0 Hq0 Hu0 Hk0. unfold start, queue_tasks. rewrite Hr0. simpl.
  by rewrite Hq0, Hu0, Hk0.
Qed.

(* The pool started with the single keyword; the search keeps five links. *)
Lemma search_feeds_queue_witness :
  let b := Scenario.one_keyword in
  let w := Scenario.quiet_world in
  (running b = true ∧ paused b = false ∧ task_queue b = [Search "rocq"] ∧
   search_succeeds (w_search w) b = true) ∧
  (search_google (w_search w) "rocq" (set_queue [] b)).2 =
    ["https://a.example/1"; "https://b.example/2"; "https://c.example/3";
     "https://d.example/4"; "https://e.example/5"] ∧
  task_queue (worker_iteration w b).1 =
    [Visit "https://a.example/1"; Visit "https://b.example/2";
     Visit "https://c.example/3"] ∧
  length (task_queue (worker_iteration w b).1) = 3%nat.
Proof.
  intros b w.
  assert (running b = true) as H1 by reflexivity.
  assert (paused b = false) as H2 by reflexivity.
  assert (task_queue b = [Search "rocq"]) as H3 by reflexivity.
  assert (search_succeeds (w_search w) b = true) as H4 by reflexivity.
  destruct (search_feeds_queue w "rocq" [] b H1 H2 H3) as (Hq & Hlen & Hs & _ & _).
  split; [by repeat split|]. split; [exact (Hs H4)|].
  split; [rewrite Hq, (Hs H4); reflexivity|].
  rewrite Hlen, (Hs H4). reflexivity.
Defined.

(** *** Pause and resume *)

Lemma finished_thread_lookup (ts : list bool) i :
  Forall (λ t, t = false) ts → ts !! i ≠ Some true.
Proof.
  intros Hall Hi. rewrite Forall_forall in Hall.
  apply list_elem_of_lookup_2, Hall in Hi. done.
Qed.

(* once every worker has returned, nothing the control plane can do short
   of stopping the pool lets a task be taken off the queue *)
Lemma finished_pool_idle evs : ∀ b,
  running b = true → Forall (λ t, t = false) (worker_threads b) →
  let b' := run_events evs b in
  running b' = true ∧ worker_threads b' = worker_threads b ∧
  task_queue b' = task_queue b ∧ stats b' = stats b ∧ scheduler b' = scheduler b.
Proof.
  unfold run_events. induction evs as [|ev evs IH]; intros b Hr Hall; simpl; [done|].
  assert (running (apply_event ev b) = true ∧
          worker_threads (apply_event ev b) = worker_threads b ∧
          task_queue (apply_event ev b) = task_queue b ∧
          stats (apply_event ev b) = stats b ∧
          scheduler (apply_event ev b) = scheduler b) as (H1 & H2 & H3 & H4 & H5).
  { destruct ev as [now n| | |i w]; simpl.
    - unfold start. by rewrite Hr.
    - unfold pause. rewrite Hr. by destruct (paused b).
    - unfold resume. rewrite Hr. by destruct (paused b).
    - unfold thread_step.
      pose proof (finished_thread_lookup (worker_threads b) i Hall).
      by destruct (worker_threads b !! i) as [[|]|]. }
  destruct (IH (apply_event ev b) H1) as (G1 & G2 & G3 & G4 & G5).
  { by rewrite H2. }
  simpl in *. rewrite G2, G3, G4, G5. done.
Qed.

(** C9. A pool is started with one worker and one URL; pause() is called;
    the worker comes to the test of its while loop, finds [paused] set and
    its function returns; resume() is called.  The pool now reports running
    and not paused, the Visit task is still in the queue, and whatever
    happens next (turns given to the thread, further pause, resume or start
    calls) the task is never taken: the queue and the statistics stay as
    they are. *)
Theorem workers_do_not_survive_pause (now : datetime) (w : world) (url : string)
    (sch : sched) :
  let b0 := start now 1 (set_lists [] [url] (init sch)) in
  let b1 := pause b0 in
  let b2 := thread_step 0 w b1 in
  let b3 := resume b2 in
  task_queue b0 = [Visit url] ∧ worker_threads b0 = [true] ∧
  paused b1 = true ∧ worker_threads b2 = [false] ∧ task_queue b2 = [Visit url] ∧
  running b3 = true ∧ paused b3 = false ∧
  ∀ evs, task_queue (run_events evs b3) = [Visit url] ∧
         stats (run_events evs b3) = stats (init sch) ∧
         worker_threads (run_events evs b3) = [false].
Proof.
  intros b0 b1 b2 b3.
  repeat (split; [reflexivity|]).
  intros evs.
  destruct (finished_pool_idle evs b3) as (_ & H2 & H3 & H4 & _).
  - reflexivity.
  - repeat constructor.
  - rewrite H2, H3, H4. done.
Qed.

End BotProps.
(** * Further properties of the scheduler *)

Module SchedulerExtras.

Import TrafficScheduler SchedulerProps.

(** *** What a recalculation leaves alone *)

(** X1. calculate_schedule, whether it returns or raises, touches neither
    the live counters and their markers nor the active hours, the active
    days and the mode; it leaves both dates set, to the given ones or to
    their defaults, and once set no later recalculation, at whatever time,
    moves them. *)
Theorem recalculation_frame (now : datetime) (rnd : nat → Z) (s : sched) :
  let s' := state_of (calculate_schedule now rnd s) in
  (hourly_visits s' = hourly_visits s ∧ daily_visits s' = daily_visits s ∧
   monthly_visits s' = monthly_visits s ∧ total_visits s' = total_visits s ∧
   last_hour s' = last_hour s ∧ last_day s' = last_day s ∧
   last_month s' = last_month s) ∧
  (active_hours s' = active_hours s ∧ active_days s' = active_days s ∧
   schedule_mode s' = schedule_mode s) ∧
  (start_date s' = Some (campaign_start now s) ∧
   end_date s' = Some (campaign_end now s)) ∧
  (∀ now' rnd',
     let s'' := state_of (calculate_schedule now' rnd' s') in
     start_date s'' = start_date s' ∧ end_date s'' = end_date s').
Proof.
  intros s'.
  assert (∀ n r x,
    let y := state_of (calculate_schedule n r x) in
    (hourly_visits y = hourly_visits x ∧ daily_visits y = daily_visits x ∧
     monthly_visits y = monthly_visits x ∧ total_visits y = total_visits x ∧
     last_hour y = last_hour x ∧ last_day y = last_day x ∧
     last_month y = last_month x) ∧
    (active_hours y = active_hours x ∧ active_days y = active_days x ∧
     schedule_mode y = schedule_mode x) ∧
    (start_date y = Some (campaign_start n x) ∧
     end_date y = Some (campaign_end n x))) as Hframe.
  { intros n r x. unfold calculate_schedule.
    destruct (derive_targets _ _ _ _) as [e|tv]; simpl; [done|].
    destruct (distribute _ _ _ _ _ _) as [[e tbl]|tbl]; simpl; done. }
  destruct (Hframe now rnd s) as (H1 & H2 & H3 & H4).
  change (state_of (calculate_schedule now rnd s)) with s' in H1, H2, H3, H4 |- *.
  clearbody s'.
  split; [exact H1|]. split; [exact H2|]. split; [by split|].
  intros now' rnd' s''.
  destruct (Hframe now' rnd' s') as (_ & _ & H5 & H6).
  subst s''. rewrite H5, H6.
  unfold campaign_start, campaign_end. by rewrite H3, H4.
Qed.

(** *** The gate on its permitting path *)

Lemma gate_permit_rollover now s s' :
  should_generate_traffic now s = (s', true) → s' = rollover now s.
Proof.
  unfold should_generate_traffic.
  destruct (before_start now s); [done|].
  destruct (after_end now s); [done|].
  destruct (inactive now s); [done|].
  destruct (quota_reached now s); [done|]. by intros [= <-].
Qed.

Lemma rollover_current now s :
  last_hour s = Some (dt_hour now) → last_day s = Some (dt_day now) →
  last_month s = Some (dt_month now) → rollover now s = s.
Proof.
  intros Hh Hd Hm. unfold rollover.
  rewrite !bool_decide_eq_false_2 by (intros H; congruence).
  simpl. by destruct s.
Qed.

Lemma gate_current_unchanged now s :
  last_hour s = Some (dt_hour now) → last_day s = Some (dt_day now) →
  last_month s = Some (dt_month now) → (should_generate_traffic now s).1 = s.
Proof.
  intros Hh Hd Hm.
  destruct (should_generate_traffic now s) as [s' [|]] eqn:E; simpl.
  - apply gate_permit_rollover in E. rewrite E. by apply rollover_current.
  - pose proof (gate_reject_unchanged now s) as H. rewrite E in H. by apply H.
Qed.

Lemma permitted_marks now s s' :
  should_generate_traffic now s = (s', true) →
  last_hour s' = Some (dt_hour now) ∧ last_day s' = Some (dt_day now) ∧
  last_month s' = Some (dt_month now) ∧
  (0 ≤ hourly_visits s → 0 ≤ hourly_visits s') ∧
  hourly_targets s' = hourly_targets s.
Proof.
  intros H. apply gate_permit_rollover in H. subst s'.
  unfold rollover. repeat case_bool_decide; simpl; repeat split;
    try done; by apply dec_stable.
Qed.

(** X2. A check that the gate permits leaves the three markers at the hour,
    the day of the month and the month of [now]; it resets each of the three
    periodic counters exactly when its marker was different, and never the
    total; the configuration and the table are as before.  Any further
    check at a time with that same hour, day and month, permitted or not,
    then leaves the scheduler as it is. *)
Theorem permitted_check_rolls_over (now : datetime) (s s' : sched) :
  should_generate_traffic now s = (s', true) →
  (last_hour s' = Some (dt_hour now) ∧ last_day s' = Some (dt_day now) ∧
   last_month s' = Some (dt_month now)) ∧
  (hourly_visits s' =
     (if bool_decide (last_hour s = Some (dt_hour now)) then hourly_visits s else 0) ∧
   daily_visits s' =
     (if bool_decide (last_day s = Some (dt_day now)) then daily_visits s else 0) ∧
   monthly_visits s' =
     (if bool_decide (last_month s = Some (dt_month now)) then monthly_visits s else 0) ∧
   total_visits s' = total_visits s) ∧
  (target_visits s' = target_visits s ∧ hourly_targets s' = hourly_targets s ∧
   start_date s' = start_date s ∧ end_date s' = end_date s ∧
   active_hours s' = active_hours s ∧ active_days s' = active_days s ∧
   schedule_mode s' = schedule_mode s) ∧
  (∀ now2, dt_hour now2 = dt_hour now → dt_day now2 = dt_day now →
           dt_month now2 = dt_month now →
           (should_generate_traffic now2 s').1 = s').
Proof.
  intros H. apply gate_permit_rollover in H. subst s'.
  assert (last_hour (rollover now s) = Some (dt_hour now) ∧
          last_day (rollover now s) = Some (dt_day now) ∧
          last_month (rollover now s) = Some (dt_month now)) as (Hh & Hd & Hm).
  { unfold rollover. repeat case_bool_decide; simpl; repeat split;
      try done; by apply dec_stable. }
  split; [done|]. split; [|split].
  - unfold rollover. repeat case_bool_decide; simpl; done.
  - unfold rollover. repeat case_bool_decide; simpl; done.
  - intros now2 E1 E2 E3. apply gate_current_unchanged; congruence.
Qed.

Lemma permitted_check_rolls_over_witness :
  let s := Scenario.january_5_per_hour in
  let now := Scenario.monday 9 0 in
  let s' := (should_generate_traffic now s).1 in
  should_generate_traffic now s = (s', true) ∧
  last_hour s = None ∧ last_hour s' = Some 9 ∧ last_day s' = Some 1 ∧
  last_month s' = Some 1 ∧
  (should_generate_traffic (Scenario.monday 9 45) s').1 = s'.
Proof.
  intros s now s'.
  assert (should_generate_traffic now s = (s', true)) as H by (vm_compute; reflexivity).
  destruct (permitted_check_rolls_over now s s' H) as ((Hh & Hd & Hm) & _ & _ & Hagain).
  split; [exact H|]. split; [reflexivity|].
  split; [exact Hh|]. split; [exact Hd|]. split; [exact Hm|].
  apply Hagain; reflexivity.
Defined.


(** *** Tasks going through the gate one after the other *)

Lemma gate_permit_quota now s s' :
  should_generate_traffic now s = (s', true) → quota_reached now s = false.
Proof.
  unfold should_generate_traffic.
  destruct (before_start now s); [done|].
  destruct (after_end now s); [done|].
  destruct (inactive now s); [done|].
  by destruct (quota_reached now s).
Qed.

Lemma same_bucket_same_marks a b :
  hour_key a = hour_key b →
  dt_hour a = dt_hour b ∧ dt_day a = dt_day b ∧ dt_month a = dt_month b.
Proof.
  unfold hour_key, dt_day, dt_month. intros [= Ho Hh]. by rewrite Ho, Hh.
Qed.

Lemma admitted_cons b bs :
  admitted (b :: bs) = (if b then 1 else 0) + admitted bs.
Proof.
  unfold admitted. rewrite filter_cons.
  destruct b; case_decide; try done; simpl length; lia.
Qed.

(* once the markers are those of the bucket, every admission uses up one
   unit of what is left of the target *)
Lemma admitted_marked now0 t ts : ∀ s,
  Forall (λ now, hour_key now = hour_key now0) ts →
  hourly_targets s !! hour_key now0 = Some t →
  last_hour s = Some (dt_hour now0) → last_day s = Some (dt_day now0) →
  last_month s = Some (dt_month now0) →
  admitted (attempts ts s).2 ≤ Z.max 0 (t - hourly_visits s).
Proof.
  induction ts as [|now ts IH]; intros s Hts Hk Hh Hd Hm; simpl.
  { unfold admitted. simpl. lia. }
  inversion Hts as [|? ? Hnow Hts']; subst.
  destruct (same_bucket_same_marks now now0 Hnow) as (E1 & E2 & E3).
  unfold attempt.
  destruct (should_generate_traffic now s) as [s1 [|]] eqn:E.
  - pose proof (gate_permit_quota _ _ _ E) as Hq.
    apply gate_permit_rollover in E.
    rewrite rollover_current in E by congruence. subst s1.
    unfold quota_reached in Hq. rewrite Hnow, Hk in Hq.
    apply Z.leb_gt in Hq.
    specialize (IH (record_visit s) Hts' Hk Hh Hd Hm).
    destruct (attempts ts (record_visit s)) as [s2 bs]. simpl in *.
    rewrite admitted_cons. lia.
  - pose proof (gate_reject_unchanged now s) as Hs. rewrite E in Hs.
    simpl in Hs. rewrite (Hs eq_refl).
    specialize (IH s Hts' Hk Hh Hd Hm).
    destruct (attempts ts s) as [s2 bs]. simpl in *.
    rewrite admitted_cons. lia.
Qed.

(** X3. Tasks that ask the gate and record their visit when let in, one
    after the other at times of one bucket whose target in the table is [t],
    are let in at most [t] times (not at all for a target that is not
    positive), from any state of the counters that is not negative. *)
Theorem quota_never_exceeded (now0 : datetime) (t : Z) (ts : list datetime) (s : sched) :
  hourly_targets s !! hour_key now0 = Some t →
  0 ≤ hourly_visits s →
  Forall (λ now, hour_key now = hour_key now0) ts →
  admitted (attempts ts s).2 ≤ Z.max 0 t.
Proof.
  revert s. induction ts as [|now ts IH]; intros s Hk Hhv Hts; simpl.
  { unfold admitted. simpl. lia. }
  inversion Hts as [|? ? Hnow Hts']; subst.
  destruct (same_bucket_same_marks now now0 Hnow) as (E1 & E2 & E3).
  unfold attempt.
  destruct (should_generate_traffic now s) as [s1 [|]] eqn:E.
  - pose proof (gate_permit_quota _ _ _ E) as Hq.
    unfold quota_reached in Hq. rewrite Hnow, Hk in Hq. apply Z.leb_gt in Hq.
    destruct (permitted_marks now s s1 E) as (Hh & Hd & Hm & Hv & Htbl).
    specialize (Hv Hhv).
    pose proof (admitted_marked now0 t ts (record_visit s1) Hts') as HA.
    simpl in HA. rewrite Htbl in HA.
    specialize (HA Hk ltac:(congruence) ltac:(congruence) ltac:(congruence)).
    destruct (attempts ts (record_visit s1)) as [s2 bs]. simpl in *.
    rewrite admitted_cons. lia.
  - pose proof (gate_reject_unchanged now s) as Hs. rewrite E in Hs.
    simpl in Hs. rewrite (Hs eq_refl).
    specialize (IH s Hk Hhv Hts').
    destruct (attempts ts s) as [s2 bs]. simpl in *.
    rewrite admitted_cons. lia.
Qed.

(* A bucket with target 2 and a stale counter of 1: five tasks, two let in. *)
Lemma quota_never_exceeded_witness :
  let s := record_visit (set_table {[ (738886, 9) := 2 ]} init) in
  let now0 := Scenario.monday 9 0 in
  let ts := [Scenario.monday 9 0; Scenario.monday 9 10; Scenario.monday 9 20;
             Scenario.monday 9 30; Scenario.monday 9 40] in
  (hourly_targets s !! hour_key now0 = Some 2 ∧ 0 ≤ hourly_visits s ∧
   Forall (λ now, hour_key now = hour_key now0) ts) ∧
  (attempts ts s).2 = [true; true; false; false; false] ∧
  admitted (attempts ts s).2 ≤ Z.max 0 2.
Proof.
  intros s now0 ts.
  assert (hourly_targets s !! hour_key now0 = Some 2) as H1 by reflexivity.
  assert (0 ≤ hourly_visits s) as H2 by discriminate.
  assert (Forall (λ now, hour_key now = hour_key now0) ts) as H3
    by (repeat constructor).
  split; [by repeat split|]. split; [vm_compute; reflexivity|].
  exact (quota_never_exceeded now0 2 ts s H1 H2 H3).
Defined.


(** *** Which buckets the table has *)

Lemma map_fmap {A B} (f : A → B) (l : list A) : map f l = f <$> l.
Proof. induction l as [|x l IH]; simpl; [done|]. by rewrite IH. Qed.

Lemma foldl_put_dom kvs : ∀ (tbl : gmap (Z * Z) Z) k,
  is_Some (foldl put tbl kvs !! k) ↔ is_Some (tbl !! k) ∨ ∃ v, (k, v) ∈ kvs.
Proof.
  induction kvs as [|[k0 v0] kvs IH]; intros tbl k; simpl.
  - split; [by left|]. intros [H|[v H]]; [done|]. by apply elem_of_nil in H.
  - rewrite IH. unfold put. simpl. split.
    + intros [H|[v H]].
      * destruct (decide (k0 = k)) as [->|Hne].
        -- right. exists v0. constructor.
        -- rewrite lookup_insert_ne in H by done. by left.
      * right. exists v. by constructor.
    + intros [H|[v H]].
      * left. destruct (decide (k0 = k)) as [->|Hne].
        -- rewrite lookup_insert_eq. eauto.
        -- by rewrite lookup_insert_ne.
      * apply elem_of_cons in H as [[= -> ->]|H].
        -- left. rewrite lookup_insert_eq. eauto.
        -- right. eauto.
Qed.

Lemma foldl_put_other kvs : ∀ (tbl : gmap (Z * Z) Z) k,
  (∀ v, (k, v) ∉ kvs) → foldl put tbl kvs !! k = tbl !! k.
Proof.
  induction kvs as [|[k0 v0] kvs IH]; intros tbl k Hk; simpl; [done|].
  rewrite IH.
  - unfold put. simpl. apply lookup_insert_ne. intros ->.
    apply (Hk v0). constructor.
  - intros v Hv. apply (Hk v). by constructor.
Qed.

Lemma weighted_fill_dom ws tw T : ∀ tbl0 tbl k,
  weighted_fill ws tw T tbl0 = inr tbl →
  is_Some (tbl !! k) ↔ is_Some (tbl0 !! k) ∨ ∃ w, (k, w) ∈ ws.
Proof.
  induction ws as [|[k0 w0] ws IH]; intros tbl0 tbl k; simpl.
  - intros [= <-]. split; [by left|]. intros [H|[w H]]; [done|].
    by apply elem_of_nil in H.
  - destruct (pydiv _ _) as [share|]; [|done]. intros H.
    rewrite (IH _ _ k H). split.
    + intros [Hs|[w Hw]].
      * destruct (decide (k0 = k)) as [->|Hne].
        -- right. exists w0. constructor.
        -- rewrite lookup_insert_ne in Hs by done. by left.
      * right. exists w. by constructor.
    + intros [Hs|[w Hw]].
      * left. destruct (decide (k0 = k)) as [->|Hne].
        -- rewrite lookup_insert_eq. eauto.
        -- by rewrite lookup_insert_ne.
      * apply elem_of_cons in Hw as [[= -> ->]|Hw].
        -- left. rewrite lookup_insert_eq. eauto.
        -- right. eauto.
Qed.

Lemma sumZ_alter_succ (l : list Z) : ∀ i,
  (i < length l)%nat → sumZ (alter (λ v, v + 1) i l) = sumZ l + 1.
Proof.
  induction l as [|x l IH]; intros [|i] Hi; simpl in Hi; try lia.
  - change (sumZ (x + 1 :: l) = sumZ (x :: l) + 1). unfold sumZ. simpl. lia.
  - change (x + sumZ (alter (λ v, v + 1) i l) = x + sumZ l + 1).
    rewrite IH by lia. lia.
Qed.

Lemma scatter_spec rnd n : ∀ r k vals vals' k',
  n = Z.of_nat (length vals) →
  scatter r rnd k n vals = inr (vals', k') →
  length vals' = length vals ∧ sumZ vals' = sumZ vals + Z.of_nat r ∧
  (Forall (λ v, 0 ≤ v) vals → Forall (λ v, 0 ≤ v) vals').
Proof.
  induction r as [|r IH]; intros k vals vals' k' Hn; simpl.
  { intros [= <- <-]. split; [done|]. split; [lia|done]. }
  destruct (Z.leb_spec n 0) as [Hle|Hgt]; [done|]. intros Hsc.
  pose proof (Z.mod_pos_bound (rnd k) n ltac:(lia)) as Hidx.
  apply IH in Hsc as (Hlen & Hsum & Hpos); [|by rewrite length_alter].
  rewrite length_alter in Hlen. rewrite sumZ_alter_succ in Hsum by lia.
  split; [done|]. split; [lia|]. intros Hall. apply Hpos.
  apply Forall_alter; [done|]. intros; lia.
Qed.

Lemma zip_member {A B} (ks : list A) (vs : list B) k :
  length vs = length ks → (∃ v, (k, v) ∈ zip ks vs) ↔ k ∈ ks.
Proof.
  revert vs. induction ks as [|k0 ks IH]; intros [|v0 vs] Hlen; simpl in *; try done.
  - split; [intros [v H]|intros H]; by apply elem_of_nil in H.
  - split.
    + intros [v H]. apply elem_of_cons in H as [[= -> ->]|H]; [constructor|].
      constructor. apply (IH vs); [lia|eauto].
    + intros H. apply elem_of_cons in H as [->|H].
      * exists v0. constructor.
      * apply (IH vs) in H as [v H]; [|lia]. exists v. by constructor.
Qed.

Lemma foldl_put_zip (ks : list (Z * Z)) : ∀ (vs : list Z) tbl i k,
  NoDup ks → length vs = length ks → ks !! i = Some k →
  foldl put tbl (zip ks vs) !! k = vs !! i.
Proof.
  induction ks as [|k0 ks IH]; intros [|v0 vs] tbl i k Hnd Hlen Hi; simpl in *;
    try done.
  apply NoDup_cons in Hnd as [Hk0 Hnd].
  destruct i as [|i]; simpl in *.
  - injection Hi as <-. rewrite foldl_put_other.
    + unfold put. simpl. apply lookup_insert_eq.
    + intros v Hv. apply Hk0. apply (zip_member ks vs); [lia|eauto].
  - apply IH; [done|lia|done].
Qed.

Lemma key_of_day_keys start d ahours k :
  k ∈ map (key_of start d) ahours ↔ ∃ h, h ∈ ahours ∧ k = key_of start d h.
Proof.
  rewrite map_fmap, list_elem_of_fmap. split; intros (h & H1 & H2); eauto.
Qed.

Lemma day_keys_NoDup start d ahours :
  NoDup ahours → NoDup (map (key_of start d) ahours).
Proof.
  intros H. rewrite map_fmap. apply NoDup_fmap_2_strong; [|done].
  intros h h' _ _ E. by apply key_of_inj in E as [_ ->].
Qed.

(* what the loop of the 'random' mode leaves in the table *)
Lemma random_table_spec start ahours daily_target rnd :
  NoDup ahours → ∀ offs k0 tbl0 tbl,
  NoDup offs →
  random_table start ahours offs daily_target rnd k0 tbl0 = inr tbl →
  (∀ k, (∀ d h, d ∈ offs → h ∈ ahours → k ≠ key_of start d h) →
        tbl !! k = tbl0 !! k) ∧
  (∀ d, d ∈ offs →
     ∃ vals, length vals = length ahours ∧
             sumZ vals = Z.max 0 daily_target ∧
             Forall (λ v, 0 ≤ v) vals ∧
             ∀ i h, ahours !! i = Some h → tbl !! key_of start d h = vals !! i).
Proof.
  intros Hah. induction offs as [|d0 offs IH]; intros k0 tbl0 tbl Hnd; simpl.
  { intros [= <-]. split; [done|].
    intros d Hd. by apply elem_of_nil in Hd. }
  apply NoDup_cons in Hnd as [Hd0 Hnd].
  destruct (scatter _ _ _ _ _) as [e|[vals0 k1]] eqn:Hsc; [done|].
  intros H. apply IH in H as (Hother & Hdays); [|done].
  apply scatter_spec in Hsc as (Hlen & Hsum & Hpos); [|by rewrite length_replicate].
  rewrite length_replicate, length_map in Hlen.
  assert (sumZ (replicate (length (map (key_of start d0) ahours)) 0) = 0) as Hz.
  { generalize (length (map (key_of start d0) ahours)).
    intros n. induction n as [|n IHn]; simpl; lia. }
  assert (∀ i h, ahours !! i = Some h → tbl !! key_of start d0 h = vals0 !! i) as Hd0v.
  { intros i h Hi. rewrite Hother.
    - apply foldl_put_zip.
      + by apply day_keys_NoDup.
      + by rewrite length_map.
      + rewrite map_fmap, list_lookup_fmap, Hi. done.
    - intros d h' Hd _ E. apply key_of_inj in E as [<- _]. done. }
  split.
  - intros k Hk. rewrite Hother.
    + apply foldl_put_other. intros v Hv.
      assert (k ∈ map (key_of start d0) ahours) as Hkin.
      { apply (zip_member _ vals0); [by rewrite length_map|eauto]. }
      apply key_of_day_keys in Hkin as (h & Hh & ->).
      apply (Hk d0 h); [constructor|done|done].
    + intros d h Hd Hh. apply Hk; [by constructor|done].
  - intros d Hd. apply elem_of_cons in Hd as [->|Hd]; [|by apply Hdays].
    exists vals0. split; [done|]. split; [rewrite Hsum, Hz; lia|].
    split; [|done]. apply Hpos. apply Forall_replicate. lia.
Qed.

Lemma random_table_dom start ahours daily_target rnd k : ∀ offs k0 tbl0 tbl,
  random_table start ahours offs daily_target rnd k0 tbl0 = inr tbl →
  is_Some (tbl !! k) ↔
  is_Some (tbl0 !! k) ∨ ∃ d h, d ∈ offs ∧ h ∈ ahours ∧ k = key_of start d h.
Proof.
  induction offs as [|d0 offs IH]; intros k0 tbl0 tbl; simpl.
  { intros [= <-]. split; [by left|]. intros [H|(d & h & Hd & _)]; [done|].
    by apply elem_of_nil in Hd. }
  destruct (scatter _ _ _ _ _) as [e|[vals0 k1]] eqn:Hsc; [done|].
  intros H. rewrite (IH _ _ _ H), foldl_put_dom.
  apply scatter_spec in Hsc as (Hlen & _ & _); [|by rewrite length_replicate].
  rewrite length_replicate in Hlen.
  rewrite (zip_member _ vals0 k Hlen), key_of_day_keys. split.
  - intros [[Hs|(h & Hh & ->)]|(d & h & Hd & Hh & ->)].
    + by left.
    + right. exists d0, h. repeat split; [constructor|done].
    + right. exists d, h. repeat split; [by constructor|done].
  - intros [Hs|(d & h & Hd & Hh & ->)]; [by left; left|].
    apply elem_of_cons in Hd as [->|Hd].
    + left. right. eauto.
    + right. eauto.
Qed.

Lemma active_offsets_elem start adays total_days d :
  d ∈ active_offsets start adays total_days ↔
  0 ≤ d < total_days ∧ (dt_ord start + d + 6) mod 7 ∈ adays.
Proof.
  unfold active_offsets. rewrite list_elem_of_filter, elem_of_seqZ, mem_true.
  unfold weekday, add_days. simpl. split; intros [H1 H2]; split; try done; lia.
Qed.

(* in each of the four modes a table that was completed has an entry for
   exactly the pairs the two loops run through *)
Lemma distribute_dom mode start ahours offs tv rnd tbl :
  mode ∈ valid_modes →
  distribute mode start ahours offs tv rnd = inr tbl →
  ∀ k, is_Some (tbl !! k) ↔ ∃ d h, d ∈ offs ∧ h ∈ ahours ∧ k = key_of start d h.
Proof.
  intros Hmode H k. unfold distribute, valid_modes in *.
  assert (∀ wf, (∃ w, (k, w) ∈ weights_of wf start ahours offs) ↔
                ∃ d h, d ∈ offs ∧ h ∈ ahours ∧ k = key_of start d h) as Hw.
  { intros wf. split.
    - intros [w Hin]. apply elem_of_weights_of in Hin as (d & h & ? & ? & ? & _). eauto.
    - intros (d & h & Hd & Hh & ->). exists (wf d h). apply elem_of_weights_of. eauto 6. }
  assert (∀ wf T, weighted_table wf start ahours offs T = inr tbl →
            is_Some (tbl !! k) ↔ ∃ d h, d ∈ offs ∧ h ∈ ahours ∧ k = key_of start d h)
    as Hweighted.
  { intros wf T Ht. unfold weighted_table in Ht.
    rewrite (weighted_fill_dom _ _ _ _ _ k Ht), <- (Hw wf). split; [|by right].
    intros [Hs|Hs]; [|done]. rewrite lookup_empty in Hs. by destruct Hs. }
  repeat (apply elem_of_cons in Hmode as [->|Hmode]); simpl in H.
  - injection H as <-. rewrite even_table_flat, foldl_put_dom, (Hw (λ _ _, hourly tv)).
    split; [|by right]. intros [Hs|Hs]; [|done].
    rewrite lookup_empty in Hs. by destruct Hs.
  - rewrite (random_table_dom _ _ _ _ k _ _ _ _ H). split; [|by right].
    intros [Hs|Hs]; [|done]. rewrite lookup_empty in Hs. by destruct Hs.
  - by apply (Hweighted _ _ H).
  - by apply (Hweighted _ _ H).
  - by apply elem_of_nil in Hmode.
Qed.

(** X4. After a recalculation that returns, in any of the four modes, the
    table has an entry for a bucket exactly when the bucket's date is one of
    the [campaign_days] days counted from the start date, the weekday of that
    date is active and the bucket's hour is active. *)
Theorem table_covers_campaign (now : datetime) (rnd : nat → Z) (s s' : sched) :
  calculate_schedule now rnd s = Done s' →
  schedule_mode s ∈ valid_modes →
  ∀ k, is_Some (hourly_targets s' !! k) ↔ campaign_bucket now s k.
Proof.
  intros Hdone Hmode k.
  apply calculate_schedule_Done in Hdone as (tv & tbl & _ & Ht & ->). simpl.
  rewrite (distribute_dom _ _ _ _ _ _ _ Hmode Ht k).
  unfold campaign_bucket, campaign_offsets. split.
  - intros (d & h & Hd & Hh & ->). apply active_offsets_elem in Hd as [Hd Hw].
    simpl. repeat split; try lia; try done.
  - intros ((Hlo & Hhi) & Hw & Hh). destruct k as [o h]. simpl in *.
    exists (o - dt_ord (campaign_start now s)), h. split; [|split; [done|]].
    + apply active_offsets_elem. split; [lia|].
      by replace (dt_ord (campaign_start now s) + (o - dt_ord (campaign_start now s)))
        with o by lia.
    + unfold key_of. simpl. f_equal. lia.
Qed.


(* January at 5 per hour: Tuesday 14:00 has a bucket; hour 24 has none. *)
Lemma table_covers_campaign_witness :
  let now := Scenario.monday 9 0 in
  let s := set_target_visits (mkTargets 5 0 0 0) init in
  let s' := Scenario.january_5_per_hour in
  (calculate_schedule now Scenario.draws_zero s = Done s' ∧
   schedule_mode s ∈ valid_modes ∧ campaign_bucket now s (738887, 14)) ∧
  is_Some (hourly_targets s' !! (738887, 14)) ∧
  hourly_targets s' !! (738887, 24) = None.
Proof.
  intros now s s'.
  assert (calculate_schedule now Scenario.draws_zero s = Done s') as H1
    by (vm_compute; reflexivity).
  assert (schedule_mode s ∈ valid_modes) as H2 by constructor.
  assert (campaign_bucket now s (738887, 14)) as H3.
  { split; [split; [discriminate|reflexivity]|].
    split; apply list_elem_of_In; vm_compute; tauto. }
  split; [exact (conj H1 (conj H2 H3))|]. split.
  - apply (table_covers_campaign now Scenario.draws_zero s s' H1 H2 (738887, 14)).
    exact H3.
  - vm_compute. reflexivity.
Defined.

(** *** The 'random' mode hands out the daily target *)

Lemma day_targets_vals tbl start ahours d vals :
  length vals = length ahours →
  (∀ i h, ahours !! i = Some h → tbl !! key_of start d h = vals !! i) →
  day_targets tbl start ahours d = vals.
Proof.
  intros Hlen Hv. apply list_eq. intros i. unfold day_targets.
  rewrite map_fmap, list_lookup_fmap.
  destruct (ahours !! i) as [h|] eqn:Hi; simpl.
  - rewrite (Hv i h Hi).
    destruct (lookup_lt_is_Some_2 vals i) as [v Hvi]; [|by rewrite Hvi].
    rewrite Hlen. by apply lookup_lt_Some in Hi.
  - symmetry. apply lookup_ge_None. rewrite Hlen. by apply lookup_ge_None.
Qed.

(** X5. After a recalculation in 'random' mode that returns, with no
    active hour listed twice, the targets of the buckets of each active day
    of the campaign are non-negative and add up to the daily target (to
    nothing when the daily target is not positive). *)
Theorem random_mode_keeps_daily_target (now : datetime) (rnd : nat → Z) (s s' : sched) :
  calculate_schedule now rnd s = Done s' →
  schedule_mode s = "random" →
  NoDup (active_hours s) →
  ∀ d, d ∈ campaign_offsets now s →
    let day := day_targets (hourly_targets s') (campaign_start now s) (active_hours s) d in
    sumZ day = Z.max 0 (daily (target_visits s')) ∧ Forall (λ v, 0 ≤ v) day.
Proof.
  intros Hdone Hmode Hnd d Hd.
  apply calculate_schedule_Done in Hdone as (tv & tbl & _ & Ht & ->). simpl.
  rewrite Hmode in Ht. simpl in Ht.
  apply random_table_spec in Ht as [_ Hdays];
    [|done|apply active_offsets_NoDup].
  destruct (Hdays d Hd) as (vals & Hlen & Hsum & Hpos & Hv).
  by rewrite (day_targets_vals _ _ _ _ vals Hlen Hv).
Qed.

(* Two days, hours 1, 2 and 3, a daily target of 7, draws 0, 1, 2, ... *)
Lemma random_mode_keeps_daily_target_witness :
  let now := Scenario.monday 9 0 in
  let s := set_target_visits (mkTargets 0 7 0 0)
             (set_hours [1; 2; 3]
                (set_mode "random"
                   (set_dates (Some now) (Some (Scenario.tuesday 23 0)) init))) in
  let s' := state_of (calculate_schedule now Scenario.draws_count s) in
  (calculate_schedule now Scenario.draws_count s = Done s' ∧
   schedule_mode s = "random" ∧ NoDup (active_hours s) ∧
   1 ∈ campaign_offsets now s) ∧
  day_targets (hourly_targets s') (campaign_start now s) (active_hours s) 1 = [2; 3; 2] ∧
  sumZ [2; 3; 2] = Z.max 0 7.
Proof.
  intros now s s'.
  assert (calculate_schedule now Scenario.draws_count s = Done s') as H1
    by (vm_compute; reflexivity).
  assert (schedule_mode s = "random") as H2 by reflexivity.
  assert (NoDup (active_hours s)) as H3.
  { apply NoDup_ListNoDup. repeat constructor; simpl; intuition discriminate. }
  assert (1 ∈ campaign_offsets now s) as H4.
  { apply list_elem_of_In. vm_compute. right. left. reflexivity. }
  assert (day_targets (hourly_targets s') (campaign_start now s) (active_hours s) 1
          = [2; 3; 2]) as H5 by (vm_compute; reflexivity).
  split; [by repeat split|]. split; [exact H5|].
  destruct (random_mode_keeps_daily_target now Scenario.draws_count s s' H1 H2 H3 1 H4)
    as [Hsum _].
  rewrite H5 in Hsum. exact Hsum.
Defined.


(** *** What the buckets of a weighted table add up to *)









(** *** The derived targets are enough for the given one *)







(** *** get_stats *)






End SchedulerExtras.
(** * Further properties of the orchestrator *)

Module BotExtras.

Import TrafficScheduler TrafficBot BotProps.

(** *** Keywords, URLs and tracking URLs *)

(** X9. add_keyword and add_url never store the empty string and never
    store an entry twice: a list without repetition and without the empty
    string stays so; the entries already there keep their places; a
    non-empty name is in the list afterwards; adding it a second time changes
    nothing; and nothing but the list concerned is touched. *)
Theorem add_keeps_lists_clean (x : string) (b : bot) :
  let bk := add_keyword x b in
  let bu := add_url x b in
  (NoDup (keywords b) → NoDup (keywords bk)) ∧
  (NoDup (urls b) → NoDup (urls bu)) ∧
  ("" ∉ keywords b → "" ∉ keywords bk) ∧
  ("" ∉ urls b → "" ∉ urls bu) ∧
  (x ≠ "" → x ∈ keywords bk ∧ x ∈ urls bu) ∧
  (keywords b `prefix_of` keywords bk ∧ urls b `prefix_of` urls bu) ∧
  (add_keyword x bk = bk ∧ add_url x bu = bu) ∧
  (urls bk = urls b ∧ keywords bu = keywords b ∧
   task_queue bk = task_queue b ∧ task_queue bu = task_queue b).
Proof.
  intros bk bu. subst bk bu. unfold add_keyword, add_url.
  destruct (String.eqb_spec x "") as [->|Hx]; simpl.
  { repeat split; try done; by exists []; rewrite app_nil_r. }
  destruct (decide (x ∈ keywords b)) as [Hk|Hk];
    destruct (decide (x ∈ urls b)) as [Hu|Hu];
    rewrite ?(bool_decide_eq_true_2 _ Hk), ?(bool_decide_eq_false_2 _ Hk),
            ?(bool_decide_eq_true_2 _ Hu), ?(bool_decide_eq_false_2 _ Hu); simpl;
    rewrite ?(proj2 (String.eqb_neq x "") Hx); simpl;
    rewrite ?bool_decide_eq_true_2 by (apply elem_of_app; right; constructor);
    rewrite ?(bool_decide_eq_true_2 _ Hk), ?(bool_decide_eq_true_2 _ Hu); simpl;
    repeat split; try done;
    try (by exists []; rewrite app_nil_r);
    try (by eexists);
    try (intros Hnd; apply NoDup_app; repeat split; try done;
         [intros y Hy Hy'; apply list_elem_of_singleton in Hy'; by subst
         |apply NoDup_singleton]);
    try (intros Hne Hin; apply elem_of_app in Hin as [Hin|Hin]; [done|];
         apply list_elem_of_singleton in Hin; by subst);
    try (apply elem_of_app; right; constructor).
Qed.

Lemma add_keeps_lists_clean_witness :
  let b := set_lists ["rocq"; "stdpp"] ["https://a.example/"] (TrafficBot.init TrafficScheduler.init) in
  (NoDup (keywords b) ∧ NoDup (urls b) ∧ "iris" ≠ "") ∧
  keywords (add_keyword "iris" b) = ["rocq"; "stdpp"; "iris"] ∧
  keywords (add_keyword "stdpp" b) = ["rocq"; "stdpp"] ∧
  keywords (add_keyword "" b) = ["rocq"; "stdpp"] ∧
  NoDup (keywords (add_keyword "iris" b)) ∧ NoDup (urls (add_url "iris" b)) ∧
  "iris" ∈ keywords (add_keyword "iris" b).
Proof.
  intros b.
  assert (NoDup (keywords b)) as H1.
  { apply NoDup_ListNoDup. repeat constructor; simpl; intuition discriminate. }
  assert (NoDup (urls b)) as H2.
  { apply NoDup_ListNoDup. repeat constructor; simpl; intuition. }
  assert ("iris" ≠ "") as H3 by discriminate.
  destruct (add_keeps_lists_clean "iris" b) as (Hk & Hu & _ & _ & Hin & _).
  split; [exact (conj H1 (conj H2 H3))|].
  split; [reflexivity|]. split; [reflexivity|]. split; [reflexivity|].
  split; [exact (Hk H1)|]. split; [exact (Hu H2)|]. exact (proj1 (Hin H3)).
Defined.


(** X10. get_tracking_url returns the URL itself when no tracking URL is
    registered for it.  After add_tracking_url(u, t) it returns t for u (a
    later registration replacing an earlier one) and what it returned before
    for every other URL.  The DELETE endpoint answers with a warning and
    changes nothing for a URL without registration; otherwise it removes the
    registration, so that u is returned for u again, the others being
    unaffected. *)
Theorem tracking_round_trip (u t : string) (b : bot) :
  (custom_tracking_urls b !! u = None → get_tracking_url u b = u) ∧
  get_tracking_url u (add_tracking_url u t b) = t ∧
  (∀ t', add_tracking_url u t (add_tracking_url u t' b) = add_tracking_url u t b) ∧
  (∀ v, v ≠ u →
     get_tracking_url v (add_tracking_url u t b) = get_tracking_url v b ∧
     get_tracking_url v (BotApi.remove_tracking_url u b).1 = get_tracking_url v b) ∧
  get_tracking_url u (BotApi.remove_tracking_url u b).1 = u ∧
  get_tracking_url u (BotApi.remove_tracking_url u (add_tracking_url u t b)).1 = u ∧
  (custom_tracking_urls b !! u = None →
     BotApi.remove_tracking_url u b = (b, BotApi.Warning)) ∧
  (BotApi.remove_tracking_url u (add_tracking_url u t b)).2 = BotApi.Success.
Proof.
  unfold get_tracking_url, add_tracking_url, BotApi.remove_tracking_url. simpl.
  split; [by intros ->|].
  split; [by rewrite lookup_insert_eq|].
  split; [intros t'; by rewrite insert_insert_eq|].
  split.
  { intros v Hv. split; [by rewrite lookup_insert_ne|].
    case_bool_decide; simpl; [|done]. by rewrite lookup_delete_ne. }
  split.
  { case_bool_decide as H; simpl; [by rewrite lookup_delete_eq|].
    destruct (custom_tracking_urls b !! u) eqn:E; [|done].
    exfalso. apply H. eauto. }
  rewrite lookup_insert_eq.
  rewrite bool_decide_eq_true_2 by eauto. simpl.
  split; [by rewrite lookup_delete_eq|].
  split; [|done]. intros ->.
  rewrite bool_decide_eq_false_2; [done|]. by intros [? ?].
Qed.

Lemma tracking_round_trip_witness :
  let b := TrafficBot.init TrafficScheduler.init in
  let u := "https://a.example/" in
  let t := "https://a.example/?utm_source=bot" in
  custom_tracking_urls b !! u = None ∧
  get_tracking_url u b = u ∧
  get_tracking_url u (add_tracking_url u t b) = t ∧
  BotApi.remove_tracking_url u b = (b, BotApi.Warning).
Proof.
  intros b u t.
  assert (custom_tracking_urls b !! u = None) as H by reflexivity.
  destruct (tracking_round_trip u t b) as (H1 & H2 & _ & _ & _ & _ & H3 & _).
  split; [exact H|]. split; [exact (H1 H)|]. split; [exact H2|exact (H3 H)].
Defined.

(** *** The pool *)

Lemma start_fresh now n b :
  running b = false →
  let b' := start now n b in
  running b' = true ∧ paused b' = false ∧
  worker_threads b' = worker_threads b ++ replicate n true ∧
  task_queue b' = task_queue b ++ map Visit (urls b) ++ map Search (keywords b) ∧
  start_time b' = Some now.
Proof. intros H. unfold start, queue_tasks. rewrite H. done. Qed.

(** X11. start does nothing on a running bot.  On a stopped one it sets
    running, clears paused, adds [num_workers] live threads and appends to
    the queue one Visit task per URL, in order, followed by one Search task
    per keyword.  stop does nothing on a stopped bot; on a running one it
    clears both flags and the list of threads but leaves the queue as it is:
    a bot stopped and started again has its URLs and keywords queued once
    more behind whatever was left. *)
Theorem start_and_stop (now : datetime) (n : nat) (b : bot) :
  (running b = true → start now n b = b) ∧
  (running b = false → stop b = b) ∧
  (running b = false →
     let b' := start now n b in
     running b' = true ∧ paused b' = false ∧
     worker_threads b' = worker_threads b ++ replicate n true ∧
     task_queue b' = task_queue b ++ map Visit (urls b) ++ map Search (keywords b)) ∧
  (running b = true →
     let b' := stop b in
     running b' = false ∧ paused b' = false ∧ worker_threads b' = [] ∧
     task_queue b' = task_queue b ∧ stats b' = stats b ∧
     ∀ now' n',
       task_queue (start now' n' b') =
         task_queue b ++ map Visit (urls b) ++ map Search (keywords b) ∧
       worker_threads (start now' n' b') = replicate n' true).
Proof.
  split; [intros H; unfold start; by rewrite H|].
  split; [intros H; unfold stop; by rewrite H|].
  split.
  { intros H. by destruct (start_fresh now n b H) as (? & ? & ? & ? & _). }
  intros H b'. subst b'. unfold stop. rewrite H. simpl.
  repeat split; done.
Qed.

(* One URL and one keyword, a task left over from the first run. *)
Lemma start_and_stop_witness :
  let b0 := set_lists ["rocq"] ["https://a.example/"] (TrafficBot.init TrafficScheduler.init) in
  let b1 := start (Scenario.monday 9 0) 2 b0 in
  let b2 := start (Scenario.monday 10 0) 2 (stop b1) in
  (running b0 = false ∧ running b1 = true) ∧
  task_queue b1 = [Visit "https://a.example/"; Search "rocq"] ∧
  worker_threads b1 = [true; true] ∧
  start (Scenario.monday 9 30) 5 b1 = b1 ∧
  task_queue b2 = [Visit "https://a.example/"; Search "rocq";
                   Visit "https://a.example/"; Search "rocq"].
Proof.
  intros b0 b1 b2.
  assert (running b0 = false) as H0 by reflexivity.
  assert (running b1 = true) as H1 by reflexivity.
  destruct (start_and_stop (Scenario.monday 9 0) 2 b0) as (_ & _ & Hs & _).
  destruct (start_and_stop (Scenario.monday 9 30) 5 b1) as (Hn & _ & _ & Hstop).
  destruct (Hs H0) as (_ & _ & Ht & Hq).
  destruct (Hstop H1) as (_ & _ & _ & _ & _ & Hre).
  split; [exact (conj H0 H1)|]. split; [exact Hq|]. split; [exact Ht|].
  split; [exact (Hn H1)|]. exact (proj1 (Hre (Scenario.monday 10 0) 2%nat)).
Defined.

(** X12. pause and resume only move the [paused] flag, and only on a running
    bot: on a stopped bot both do nothing; pause on a running, unpaused bot
    sets the flag and resume clears it again, giving back the very bot;
    pausing a paused bot or resuming an unpaused one does nothing.  The
    endpoints answer success exactly when the call has an effect. *)
Theorem pause_and_resume (b : bot) :
  (running b = false → pause b = b ∧ resume b = b) ∧
  (running b = true → paused b = false →
     paused (pause b) = true ∧ running (pause b) = true ∧
     resume (pause b) = b ∧ resume b = b ∧ pause (pause b) = pause b) ∧
  (running b = true → paused b = true →
     pause b = b ∧ paused (resume b) = false ∧ pause (resume b) = b) ∧
  (task_queue (pause b) = task_queue b ∧ task_queue (resume b) = task_queue b ∧
   worker_threads (pause b) = worker_threads b ∧
   worker_threads (resume b) = worker_threads b) ∧
  ((BotApi.pause_bot b).2 = BotApi.Success ↔ pause b ≠ b) ∧
  ((BotApi.resume_bot b).2 = BotApi.Success ↔ resume b ≠ b) ∧
  (BotApi.pause_bot b).1 = pause b ∧ (BotApi.resume_bot b).1 = resume b.
Proof.
  unfold pause, resume, BotApi.pause_bot, BotApi.resume_bot.
  destruct b as [sc ks us [|] [|] ts q tr st t0 lv]; simpl;
    repeat split; try done; try (intros; discriminate); try congruence.
Qed.

Lemma pause_and_resume_witness :
  let b := Scenario.one_keyword in
  (running b = true ∧ paused b = false) ∧
  paused (pause b) = true ∧ resume (pause b) = b ∧
  (BotApi.pause_bot b).2 = BotApi.Success.
Proof.
  intros b.
  assert (running b = true) as H1 by reflexivity.
  assert (paused b = false) as H2 by reflexivity.
  destruct (pause_and_resume b) as (_ & Hp & _ & _ & Hapi & _).
  destruct (Hp H1 H2) as (Hp1 & _ & Hp2 & _).
  split; [exact (conj H1 H2)|]. split; [exact Hp1|]. split; [exact Hp2|].
  apply Hapi. intros E. rewrite <- E in H2. rewrite Hp1 in H2. discriminate H2.
Defined.


(** *** Visits, searches and the scheduler *)

Lemma core_incr k b : core (incr k b) = core b.
Proof. reflexivity. Qed.

Lemma core_count_device d b : core (count_device d b) = core b.
Proof. unfold count_device. by repeat case_match. Qed.

Lemma core_count_referrer r b : core (count_referrer r b) = core b.
Proof. unfold count_referrer. by repeat case_match. Qed.

Lemma core_subpages n : ∀ ps b, core (subpages n ps b) = core b.
Proof.
  induction n as [|n IH]; intros ps b; [by destruct ps|].
  destruct ps as [|[| |i] ps]; simpl; try done.
  rewrite IH. by destruct (ads_found i).
Qed.

Lemma core_set_scheduler s b : core (set_scheduler s b) = (s, pool_of b).
Proof. reflexivity. Qed.

Lemma core_set_stamps st lv b : core (set_stamps st lv b) = core b.
Proof. reflexivity. Qed.

Lemma core_choose_identity v c g p b : core (choose_identity v c g p b).1 = core b.
Proof. unfold choose_identity. by destruct (v && c), g, p. Qed.

Ltac core_simpl :=
  repeat first
    [ rewrite core_set_scheduler
    | rewrite core_set_stamps
    | rewrite core_incr
    | rewrite core_count_device
    | rewrite core_count_referrer
    | rewrite core_subpages ].

Lemma core_scheduler b : (core b).1 = scheduler b.
Proof. reflexivity. Qed.

Lemma core_record b b0 :
  core b = core b0 → core (record b) = (record_visit (scheduler b0), pool_of b0).
Proof.
  intros E. change (core (record b)) with (record_visit (core b).1, (core b).2).
  by rewrite E.
Qed.

(* the try block of visit_url records the visit exactly when it ends with
   True, and touches nothing else than statistics *)
Lemma visit_body_core e b :
  core (visit_body e b).1 =
  (match (visit_body e b).2 with
   | Ok true => record_visit (scheduler b)
   | _ => scheduler b
   end, pool_of b).
Proof.
  destruct e as [now stamp vp coin chosen prox dev drv ref get title page solved
                 bounce scroll cnt [ads compl] pages].
  cbv beta iota delta
    [visit_body bind call modify ret interact solve_captcha close_driver].
  cbn [fst snd
    v_device v_driver v_referrer v_get v_title v_captcha_page v_solved v_bounce
    v_bounce_scroll v_subpage_count v_main_page v_subpages ads_found completes].
  destruct drv as [[|]|]; cbn beta iota zeta delta [negb fst snd];
    repeat (split_env; cbn beta iota zeta delta [negb fst snd]);
    try (apply core_record); by core_simpl.
Qed.

Lemma gate_total now s :
  total_visits (should_generate_traffic now s).1 = total_visits s.
Proof.
  destruct (should_generate_traffic now s) as [s' [|]] eqn:E; simpl.
  - apply SchedulerExtras.gate_permit_rollover in E. subst s'.
    unfold rollover. by repeat case_bool_decide.
  - pose proof (SchedulerProps.gate_reject_unchanged now s) as H.
    rewrite E in H. simpl in H. by rewrite (H eq_refl).
Qed.

Lemma set_scheduler_same b : set_scheduler (scheduler b) b = b.
Proof. by destruct b. Qed.

(** X13. visit_url touches nothing of the bot but the scheduler, the
    statistics and the time stamps: queue, flags, threads, keywords, URLs and
    tracking URLs are as before.  A call that the gate rejects leaves the
    whole bot as it was.  A visit is recorded with the scheduler exactly when
    visit_url returns True: the scheduler is then the one the gate returned
    with one visit recorded, and otherwise the one the gate returned, so that
    a visit that was let in and failed uses up nothing of the quota.
    total_visits of the scheduler and the successful_visits counter advance
    together. *)
Theorem visit_uses_quota_on_success (e : visit_env) (url : string) (b : bot) :
  let g := should_generate_traffic (v_now e) (scheduler b) in
  let b' := (visit_url e url b).1 in
  let r := (visit_url e url b).2 in
  pool_of b' = pool_of b ∧
  (g.2 = false → b' = b ∧ r = false) ∧
  scheduler b' = (if r then record_visit g.1 else g.1) ∧
  (r = true → (scheduler b', true) = attempt (v_now e) (scheduler b)) ∧
  total_visits (scheduler b') - total_visits (scheduler b) = (if r then 1 else 0) ∧
  stat "successful_visits" b' - stat "successful_visits" b = (if r then 1 else 0).
Proof.
  intros g b' r.
  pose proof (gate_total (v_now e) (scheduler b)) as Htot.
  pose proof (SchedulerProps.gate_reject_unchanged (v_now e) (scheduler b)) as Hrej.
  subst g b' r. unfold attempt, visit_url, check_schedule in *.
  destruct (should_generate_traffic (v_now e) (scheduler b)) as [s [|]];
    cbn [fst snd negb] in *.
  2:{ rewrite (Hrej eq_refl), set_scheduler_same. repeat split; try done; lia. }
  set (b1 := set_stamps _ _ _).
  pose proof (core_choose_identity (v_vpn_providers e) (v_coin e) (v_vpn_chosen e)
                (v_proxies e) b1) as Hc.
  pose proof (stat_choose_identity "successful_visits" (v_vpn_providers e) (v_coin e)
                (v_vpn_chosen e) (v_proxies e) b1) as Hs.
  destruct (choose_identity _ _ _ _ b1) as [b2 flags]. cbn [fst] in Hc, Hs.
  pose proof (visit_body_core e b2) as Hcore.
  pose proof (visit_body_outcome e b2) as Hout.
  assert (tracked "successful_visits") as Htr by (right; by left).
  assert (stat "successful_visits" b2 = stat "successful_visits" b) as Hs2.
  { rewrite (Hs Htr). unfold b1.
    by rewrite stat_set_stamps, stat_incr_ne, stat_set_scheduler. }
  assert (scheduler b2 = s) as Hsch by exact (f_equal fst Hc).
  assert (pool_of b2 = pool_of b) as Hpool by exact (f_equal snd Hc).
  rewrite Hsch, Hpool in Hcore.
  destruct (visit_body e b2) as [b3 [[|]|]]; cbn [fst snd] in *;
    pose proof (f_equal fst Hcore) as H1; pose proof (f_equal snd Hcore) as H2;
    cbn [fst snd core] in H1, H2; unfold close_driver;
    rewrite ?stat_incr_ne by done;
    change (scheduler (incr "failed_visits" b3)) with (scheduler b3);
    change (pool_of (incr "failed_visits" b3)) with (pool_of b3);
    rewrite H1, H2; destruct Hout as (_ & Hout);
    (split; [done|]); (split; [done|]); (split; [done|]); (split; [done|]);
    cbn [total_visits record_visit set_counters]; split; lia.
Qed.

End BotExtras.
